(** * ClairKeys OMR service: the MusicXML to animation-data converter

    A shallow embedding of [omr-service/omr/converter.py]
    (class [MusicXMLToClairKeysConverter]) and the properties of it that the
    specification states.

    Layout of the development:
    - [Py]: the pieces of the Python runtime the converter relies on
      (exceptions, [str] methods, [int()], [float()], binary64 arithmetic,
      [max], the stable [list.sort], [datetime.isoformat]);
    - [ET]: the part of [xml.etree.ElementTree] that is used ([find],
      [findall] with the paths that occur in the source);
    - the methods of the class, one definition per method, under their
      own names, followed by the views of the extraction that the
      statements use and by sample documents ([Sample]);
    - then the lemmas, grouped by the method they are about.

    Text is modelled by [string] (8-bit characters); the embedding of the
    Unicode-aware builtins is the one they have on ASCII text. *)

From Stdlib Require Import ZArith NArith List String Ascii Bool Lia.
From Stdlib Require Import DecimalString.
From Stdlib Require Import Sorting.Sorted Sorting.Permutation.
From Stdlib Require Import Floats.SpecFloat.
Import ListNotations.

Local Open Scope string_scope.
Local Open Scope Z_scope.
Local Open Scope list_scope.
#[local] Set Warnings "-register-all".

(* ===================================================================== *)
(** * Python runtime                                                      *)
(* ===================================================================== *)

Module Py.

(** ** Exceptions *)

(** The exception classes that can occur while the converter runs.  All of
    them derive from [Exception]; none derives from another one of the
    list, so [except ValueError] catches [ValueError] only. *)
Inductive exn : Type :=
| ValueError
| TypeError
| AttributeError
| OverflowError
| ParseError      (* xml.etree.ElementTree.ParseError *)
| OSError.        (* the file cannot be opened *)

Definition exn_eqb (a b : exn) : bool :=
  match a, b with
  | ValueError, ValueError | TypeError, TypeError
  | AttributeError, AttributeError | OverflowError, OverflowError
  | ParseError, ParseError | OSError, OSError => true
  | _, _ => false
  end.

(** The outcome of evaluating an expression or running a block. *)
Inductive result (A : Type) : Type :=
| Ok (a : A)
| Raise (e : exn).
Arguments Ok {A} a.
Arguments Raise {A} e.

Definition bind {A B} (r : result A) (k : A -> result B) : result B :=
  match r with
  | Ok a => k a
  | Raise e => Raise e
  end.

(** [try: body  except <classes>: handler] *)
Definition try_except {A} (body : result A) (catches : exn -> bool)
    (handler : exn -> result A) : result A :=
  match body with
  | Ok a => Ok a
  | Raise e => if catches e then handler e else Raise e
  end.

(** [except Exception] *)
Definition any_exception (_ : exn) : bool := true.

(** Monadic left fold: a [for] loop whose body may raise. *)
Fixpoint for_each {S X} (body : S -> X -> result S) (l : list X) (s : S)
    : result S :=
  match l with
  | [] => Ok s
  | x :: l' => bind (body s x) (for_each body l')
  end.

(** ** Strings *)

Definition code (c : ascii) : N := N_of_ascii c.

(** [str.isspace] on one ASCII character: TAB..CR, FS..US and SPACE. *)
Definition is_space (c : ascii) : bool :=
  let n := code c in
  ((9 <=? n) && (n <=? 13) || (28 <=? n) && (n <=? 31) || (n =? 32))%N.

Definition is_digit (c : ascii) : bool :=
  let n := code c in ((48 <=? n) && (n <=? 57))%N.

Definition digit_value (c : ascii) : Z := Z.of_N (code c) - 48.

Fixpoint lstrip_chars (l : list ascii) : list ascii :=
  match l with
  | c :: l' => if is_space c then lstrip_chars l' else l
  | [] => []
  end.

Definition strip_chars (l : list ascii) : list ascii :=
  rev (lstrip_chars (rev (lstrip_chars l))).

(** [s.strip()] *)
Definition strip (s : string) : string :=
  string_of_list_ascii (strip_chars (list_ascii_of_string s)).

(** [s.isdigit()]: at least one character and all of them digits. *)
Definition isdigit (s : string) : bool :=
  match list_ascii_of_string s with
  | [] => false
  | l => forallb is_digit l
  end.

(** Truth value of a string or of [None]: [if s:]. *)
Definition truthy (s : option string) : bool :=
  match s with
  | Some (String _ _) => true
  | _ => false
  end.

(** [f"{s}"] for a value that is a string or [None]. *)
Definition format_text (s : option string) : string :=
  match s with
  | Some t => t
  | None => "None"
  end.

(** ASCII lower case of one character. *)
Definition lower (c : ascii) : ascii :=
  let n := code c in
  if ((65 <=? n) && (n <=? 90))%N then ascii_of_N (n + 32) else c.

(** ** Numeric literals: the grammar shared by [int()] and [float()] *)

(** An underscore is accepted only between two digits. *)
Fixpoint underscores_ok (prev : option ascii) (l : list ascii) : bool :=
  match l with
  | [] => match prev with Some "_"%char => false | _ => true end
  | c :: l' =>
      let prev_digit := match prev with Some p => is_digit p | None => false end in
      let prev_us := match prev with Some "_"%char => true | _ => false end in
      (if Ascii.eqb c "_" then prev_digit
       else negb (prev_us && negb (is_digit c)))
      && underscores_ok (Some c) l'
  end.

Definition remove_underscores (l : list ascii) : list ascii :=
  filter (fun c => negb (Ascii.eqb c "_")) l.

(** Longest prefix of digits, and what follows it. *)
Fixpoint span_digits (l : list ascii) : list ascii * list ascii :=
  match l with
  | c :: l' =>
      if is_digit c then let '(d, r) := span_digits l' in (c :: d, r)
      else ([], l)
  | [] => ([], [])
  end.

(** Value of a run of decimal digits. *)
Definition digits_value (l : list ascii) : Z :=
  fold_left (fun acc c => 10 * acc + digit_value c) l 0.

Definition split_sign (l : list ascii) : bool * list ascii :=
  match l with
  | "-"%char :: r => (true, r)
  | "+"%char :: r => (false, r)
  | _ => (false, l)
  end.

(** [sys.get_int_max_str_digits()], at its default. *)
Definition int_max_str_digits : Z := 4300.

(** [int(s)] for a string [s] (base 10): surrounding white space is
    ignored, then an optional sign and a non-empty run of digits, single
    underscores allowed between digits.  More digits than
    [int_max_str_digits] are refused. *)
Definition int_of_string (s : string) : result Z :=
  let '(neg, body) := split_sign (strip_chars (list_ascii_of_string s)) in
  if underscores_ok None body then
    match span_digits (remove_underscores body) with
    | (d :: ds, []) =>
        if int_max_str_digits <? Z.of_nat (List.length (d :: ds))
        then Raise ValueError
        else let n := digits_value (d :: ds) in Ok (if neg then - n else n)
    | _ => Raise ValueError
    end
  else Raise ValueError.

(** [int(x)] where [x] is the [text] of an element: a string or [None]. *)
Definition int_of_text (t : option string) : result Z :=
  match t with
  | Some s => int_of_string s
  | None => Raise TypeError
  end.

(** ** Floats: IEEE 754 binary64 *)

Definition float : Type := spec_float.
Definition prec : Z := 53.
Definition emax : Z := 1024.

Definition fadd : float -> float -> float := SFadd prec emax.
Definition fdiv : float -> float -> float := SFdiv prec emax.
Definition flt : float -> float -> bool := SFltb.
Definition fle : float -> float -> bool := SFleb.
Definition feq : float -> float -> bool := SFeqb.

Definition is_nan (x : float) : bool :=
  match x with S754_nan => true | _ => false end.

(** The literals [0.0], [0.5] and [4.0], and the floats 0.25 and 1.0. *)
Definition f0_0 : float := S754_zero false.
Definition f0_25 : float := S754_finite false 4503599627370496 (-54).
Definition f1_0 : float := S754_finite false 4503599627370496 (-52).
Definition f0_5 : float := S754_finite false 4503599627370496 (-53).
Definition f4_0 : float := S754_finite false 4503599627370496 (-50).

(** The float nearest to [m * 10^k], for a sign and a magnitude given in
    decimal.  For [k < 0] the quotient of the two integers is rounded once. *)
Definition float_of_decimal (neg : bool) (m : Z) (k : Z) : float :=
  match m with
  | Zpos p =>
      match k with
      | Zneg q => SFdiv prec emax (S754_finite neg p 0)
                                  (S754_finite false (10 ^ q)%positive 0)
      | _ => binary_round prec emax neg (p * Z.to_pos (10 ^ k))%positive 0
      end
  | _ => S754_zero neg
  end.

Definition lower_string (l : list ascii) : string :=
  string_of_list_ascii (map lower l).

(** The part of a float literal after the sign: mantissa digits with an
    optional fraction, then an optional exponent. Returns the decimal
    mantissa and the power of ten. *)
Definition parse_decimal (l : list ascii) : option (Z * Z) :=
  let '(ip, r1) := span_digits l in
  let '(fp, r2) :=
    match r1 with
    | "."%char :: r => span_digits r
    | _ => ([], r1)
    end in
  match ip ++ fp with
  | [] => None
  | ds =>
      let m := digits_value ds in
      let k := - Z.of_nat (List.length fp) in
      match r2 with
      | [] => Some (m, k)
      | c :: r3 =>
          if Ascii.eqb (lower c) "e" then
            let '(eneg, r4) := split_sign r3 in
            match span_digits r4 with
            | (d :: dd, []) =>
                let x := digits_value (d :: dd) in
                Some (m, k + (if eneg then - x else x))
            | _ => None
            end
          else None
      end
  end.

(** [float(s)] for a string [s]. *)
Definition float_of_string (s : string) : result float :=
  let '(neg, body) := split_sign (strip_chars (list_ascii_of_string s)) in
  let word := lower_string body in
  if (word =? "inf")%string || (word =? "infinity")%string then Ok (S754_infinity neg)
  else if (word =? "nan")%string then Ok S754_nan
  else if underscores_ok None body then
    match parse_decimal (remove_underscores body) with
    | Some (m, k) => Ok (float_of_decimal neg m k)
    | None => Raise ValueError
    end
  else Raise ValueError.

(** [float(x)] where [x] is the [text] of an element. *)
Definition float_of_text (t : option string) : result float :=
  match t with
  | Some s => float_of_string s
  | None => Raise TypeError
  end.

(** [int(x)] for a float [x]: truncation towards zero. *)
Definition int_of_float (x : float) : result Z :=
  match x with
  | S754_nan => Raise ValueError
  | S754_infinity _ => Raise OverflowError
  | S754_zero _ => Ok 0
  | S754_finite s m e =>
      let mag := match e with
                 | Zneg k => Z.shiftr (Zpos m) (Zpos k)
                 | _ => Z.shiftl (Zpos m) e
                 end in
      Ok (if s then - mag else mag)
  end.

(** ** [max] over a non-empty sequence of floats *)

(** [max(it)]: the first item is the candidate, and a later item replaces
    the candidate when it compares greater. *)
Definition max_from (first : float) (rest : list float) : float :=
  fold_left (fun best x => if flt best x then x else best) rest first.

(** ** [list.sort(key=...)] *)

Section Sort.
Context {A : Type} (key : A -> float).

(** [a] is put before the first element whose key is not below its own. *)
Fixpoint insert_by (a : A) (s : list A) : list A :=
  match s with
  | [] => [a]
  | y :: s' => if flt (key y) (key a) then y :: insert_by a s' else a :: s
  end.

(** [list.sort] is stable and compares keys with [<] only.  For keys on
    which [<] is a strict weak order (floats other than NaN) the result
    of a stable sort is unique, and it is the one of this insertion sort.
    The lemmas on [sort_by] are stated for such keys; the runs of it on
    other keys below are on lists that are one ascending run for
    [list.sort] ([not (l[i+1] < l[i])] for all [i]), which it returns as
    they are. *)
Fixpoint sort_by (l : list A) : list A :=
  match l with
  | [] => []
  | a :: l' => insert_by a (sort_by l')
  end.

(** No key is NaN. *)
Definition no_nan_keys (l : list A) : bool :=
  forallb (fun a => negb (is_nan (key a))) l.

(** Every element is at most ([<=] on the keys) every later element. *)
Definition ascending_by (l : list A) : Prop :=
  StronglySorted (fun a b => fle (key a) (key b) = true) l.
End Sort.

(** ** [datetime] *)

Record datetime : Type := {
  year : N; month : N; day : N;
  hour : N; minute : N; second : N; microsecond : N
}.

Definition digit_char (n : N) : ascii := ascii_of_N (48 + n mod 10).

(** The [width] low-order decimal digits of [n], zero padded. *)
Fixpoint pad_digits (width : nat) (n : N) : list ascii :=
  match width with
  | O => []
  | S w => pad_digits w (n / 10) ++ [digit_char n]
  end.

(** [d.isoformat()] for a naive datetime. *)
Definition isoformat (d : datetime) : string :=
  string_of_list_ascii
    (pad_digits 4 (year d) ++ ["-"%char] ++ pad_digits 2 (month d)
     ++ ["-"%char] ++ pad_digits 2 (day d) ++ ["T"%char]
     ++ pad_digits 2 (hour d) ++ [":"%char] ++ pad_digits 2 (minute d)
     ++ [":"%char] ++ pad_digits 2 (second d)
     ++ (if (microsecond d =? 0)%N then []
         else ["."%char] ++ pad_digits 6 (microsecond d))).

End Py.

Import Py.
Notation "x <- c ;; k" := (bind c (fun x => k))
  (at level 61, c at next level, right associativity).

(* ===================================================================== *)
(** * xml.etree.ElementTree                                               *)
(* ===================================================================== *)

Module ET.

(** An element: its tag, its attributes, the text before its first child
    ([None] when there is none) and its children in document order. *)
Inductive Element : Type :=
| Elem (tag : string) (attrib : list (string * string))
       (text : option string) (children : list Element).

Definition tag (e : Element) : string :=
  match e with Elem t _ _ _ => t end.
Definition attrib (e : Element) : list (string * string) :=
  match e with Elem _ a _ _ => a end.
Definition text (e : Element) : option string :=
  match e with Elem _ _ t _ => t end.
Definition children (e : Element) : list Element :=
  match e with Elem _ _ _ c => c end.

(** [e.get(k)] *)
Fixpoint get_attr (k : string) (a : list (string * string)) : option string :=
  match a with
  | [] => None
  | (k', v) :: a' => if (k' =? k)%string then Some v else get_attr k a'
  end.

(** [e.iter()]: the element and all elements below it, in document order. *)
Fixpoint iter (e : Element) : list Element :=
  match e with
  | Elem _ _ _ cs => e :: flat_map iter cs
  end.

(** The elements selected by the step [.//]: everything below [e]. *)
Definition descendants (e : Element) : list Element :=
  flat_map iter (children e).

Definition has_tag (t : string) (e : Element) : bool := (tag e =? t)%string.

(** [e.find('t')], [e.findall('t')]: children with tag [t]. *)
Definition find (t : string) (e : Element) : option Element :=
  List.find (has_tag t) (children e).
Definition findall (t : string) (e : Element) : list Element :=
  filter (has_tag t) (children e).

(** [e.find('.//t')], [e.findall('.//t')]: descendants with tag [t]. *)
Definition find_desc (t : string) (e : Element) : option Element :=
  List.find (has_tag t) (descendants e).
Definition findall_desc (t : string) (e : Element) : list Element :=
  filter (has_tag t) (descendants e).

(** [e.find('.//t[@k="v"]')] *)
Definition find_desc_attr (t k v : string) (e : Element) : option Element :=
  List.find
    (fun c => has_tag t c &&
              match get_attr k (attrib c) with
              | Some v' => (v' =? v)%string
              | None => false
              end)
    (descendants e).

(** [x.text] where [x] is the outcome of a [find]: an attribute access on
    [None] raises [AttributeError]. *)
Definition text_of (x : option Element) : result (option string) :=
  match x with
  | Some e => Ok (text e)
  | None => Raise AttributeError
  end.

Definition is_some {A} (x : option A) : bool :=
  match x with Some _ => true | None => false end.

End ET.

Import ET.

(* ===================================================================== *)
(** * MusicXMLToClairKeysConverter                                        *)
(* ===================================================================== *)

(** One entry of the [notes] list. *)
Record NoteEvent : Type := {
  midi : Z;
  start : float;
  duration : float;
  hand : string;
  finger : option Z
}.

Record Metadata : Type := {
  title : string;
  composer : string
}.

(** The dictionary returned by [convert]. *)
Record AnimationData : Type := {
  metadata : Metadata;
  notes : list NoteEvent;
  total_duration : float;          (* key "duration" *)
  tempo : Z;
  keySignature : string;
  timeSignature : string;
  generated_at : string
}.

(** What a call of [convert] reads from outside: the file system through
    [ET.parse], and the clock through [datetime.utcnow]. *)
Record Env : Type := {
  et_parse : string -> result Element;
  utcnow : datetime
}.

(** [base_notes] in [_note_to_midi] *)
Definition base_notes : list (string * Z) :=
  [("C", 60); ("D", 62); ("E", 64); ("F", 65); ("G", 67); ("A", 69); ("B", 71)].

Fixpoint lookup (k : string) (d : list (string * Z)) : option Z :=
  match d with
  | [] => None
  | (k', v) :: d' => if (k' =? k)%string then Some v else lookup k d'
  end.

(** [_note_to_midi(step, octave, alter)].  [step] is the text of the
    [step] element, possibly [None]; nothing in the body raises, so the
    [except] clause is never entered. *)
Definition _note_to_midi (step : option string) (octave alter : Z) : option Z :=
  match step with
  | None => None
  | Some s =>
      match lookup s base_notes with
      | None => None
      | Some b =>
          let midi_num := b + (octave - 4) * 12 + alter in
          if (21 <=? midi_num) && (midi_num <=? 108) then Some midi_num
          else None
      end
  end.

(** [int(alter.text) if alter is not None else 0] *)
Definition pitch_alter (pitch_elem : Element) : result Z :=
  match find "alter" pitch_elem with
  | Some alter => int_of_text (text alter)
  | None => Ok 0
  end.

(** [float(duration_elem.text) / 4.0 if duration_elem is not None else 0.5] *)
Definition note_duration (note_elem : Element) : result float :=
  match find "duration" note_elem with
  | Some duration_elem =>
      d <- float_of_text (text duration_elem) ;; Ok (fdiv d f4_0)
  | None => Ok f0_5
  end.

(** [int(fingering_elem.text) if fingering_elem is not None and
    fingering_elem.text.isdigit() else None] *)
Definition note_fingering (note_elem : Element) : result (option Z) :=
  match find_desc "fingering" note_elem with
  | None => Ok None
  | Some fingering_elem =>
      match text fingering_elem with
      | None => Raise AttributeError
      | Some t => if isdigit t then n <- int_of_string t ;; Ok (Some n)
                  else Ok None
      end
  end.

(** [if finger is not None and (finger < 1 or finger > 5): finger = None] *)
Definition clamp_finger (finger : option Z) : option Z :=
  match finger with
  | Some n => if (n <? 1) || (5 <? n) then None else Some n
  | None => None
  end.

(** The [try] block of [_parse_note_element]. *)
Definition parse_note_body (note_elem : Element) (current_time : float)
    (hand : string) : result (option NoteEvent) :=
  if is_some (find "rest" note_elem) then
    (* [duration] is assigned when there is a [duration] element, and
       not used *)
    _ <- match find "duration" note_elem with
         | Some duration_elem =>
             d <- float_of_text (text duration_elem) ;; Ok (fdiv d f4_0)
         | None => Ok f0_0
         end ;;
    Ok None
  else
    match find "pitch" note_elem with
    | None => Ok None
    | Some pitch_elem =>
        step <- text_of (find "step" pitch_elem) ;;
        octave_text <- text_of (find "octave" pitch_elem) ;;
        octave <- int_of_text octave_text ;;
        alter_value <- pitch_alter pitch_elem ;;
        match _note_to_midi step octave alter_value with
        | None => Ok None
        | Some midi_num =>
            duration <- note_duration note_elem ;;
            finger <- note_fingering note_elem ;;
            Ok (Some {| midi := midi_num; start := current_time;
                        duration := duration; hand := hand;
                        finger := clamp_finger finger |})
        end
    end.

(** [_parse_note_element(note_elem, current_time, hand)] *)
Definition _parse_note_element (note_elem : Element) (current_time : float)
    (hand : string) : result (option NoteEvent) :=
  try_except (parse_note_body note_elem current_time hand)
             any_exception (fun _ => Ok None).

(** The loops of [_extract_notes], innermost first.  The state of the
    loop over the [note] elements of a measure is the list [notes] and the
    cursor [measure_time]. *)
Definition note_step (hand : string) (st : list NoteEvent * float)
    (note_elem : Element) : result (list NoteEvent * float) :=
  let '(notes, measure_time) := st in
  note_data <- _parse_note_element note_elem measure_time hand ;;
  match note_data with
  | Some nd => Ok (notes ++ [nd], fadd (start nd) (duration nd))
  | None => Ok (notes, measure_time)
  end.

(** One measure: [measure_time] starts at [part_time], and [part_time]
    is set to it afterwards. *)
Definition measure_step (hand : string) (st : list NoteEvent * float)
    (measure : Element) : result (list NoteEvent * float) :=
  for_each (note_step hand) (findall "note" measure) st.

(** ["R" if part_idx == 0 else "L"] *)
Definition hand_of (part_idx : nat) : string :=
  match part_idx with O => "R" | _ => "L" end.

(** One part: the state is [notes] and the index of the part. *)
Definition part_step (st : list NoteEvent * nat) (part : Element)
    : result (list NoteEvent * nat) :=
  let '(notes, part_idx) := st in
  let hand := hand_of part_idx in
  r <- for_each (measure_step hand) (findall "measure" part) (notes, f0_0) ;;
  Ok (fst r, S part_idx).

(** [_extract_notes(root)] *)
Definition _extract_notes (root : Element) : result (list NoteEvent) :=
  r <- for_each part_step (findall_desc "part" root) ([], O) ;;
  Ok (sort_by start (fst r)).

(** [note['start'] + note['duration']] *)
Definition end_time (n : NoteEvent) : float := fadd (start n) (duration n).

(** [_calculate_duration(notes)] *)
Definition _calculate_duration (notes : list NoteEvent) : float :=
  match map end_time notes with
  | [] => f0_0
  | x :: rest => max_from x rest
  end.

(** [_extract_metadata(root, title, composer)] *)
Definition _extract_metadata (root : Element) (title composer : option string)
    : Metadata :=
  {| title :=
       match find_desc "work-title" root with
       | Some (Elem _ _ (Some (String c t)) _) => strip (String c t)
       | _ => match title with
              | Some (String c t) => String c t
              | _ => "Untitled"
              end
       end;
     composer :=
       match find_desc_attr "creator" "type" "composer" root with
       | Some (Elem _ _ (Some (String c t)) _) => strip (String c t)
       | _ => match composer with
              | Some (String c t) => String c t
              | _ => "Unknown"
              end
       end |}.

(** [_extract_tempo(root)] *)
Definition _extract_tempo (root : Element) : result Z :=
  match find_desc "per-minute" root with
  | Some tempo_elem =>
      if truthy (text tempo_elem) then
        try_except (x <- float_of_text (text tempo_elem) ;; int_of_float x)
                   (exn_eqb ValueError) (fun _ => Ok 120)
      else Ok 120
  | None => Ok 120
  end.

(** [keys] in [_extract_key_signature] *)
Definition keys : list string := ["C"; "G"; "D"; "A"; "E"; "B"; "F#"; "C#"].

(** [_extract_key_signature(root)] *)
Definition _extract_key_signature (root : Element) : result string :=
  match find_desc "key" root with
  | Some key_elem =>
      match find "fifths" key_elem with
      | Some fifths_elem =>
          fifths <- int_of_text (text fifths_elem) ;;
          if (0 <=? fifths) && (fifths <? Z.of_nat (List.length keys))
          then Ok (nth (Z.to_nat fifths) keys "C")
          else Ok "C"
      | None => Ok "C"
      end
  | None => Ok "C"
  end.

(** [_extract_time_signature(root)] *)
Definition _extract_time_signature (root : Element) : string :=
  match find_desc "time" root with
  | Some time_elem =>
      match find "beats" time_elem, find "beat-type" time_elem with
      | Some beats, Some beat_type =>
          (format_text (text beats) ++ "/" ++ format_text (text beat_type))%string
      | _, _ => "4/4"
      end
  | None => "4/4"
  end.

(** [convert(musicxml_path, title, composer)].  The entries of the
    dictionary are evaluated in the order in which they are written; the
    [except] clause logs and raises the exception again. *)
Definition convert (env : Env) (musicxml_path : string)
    (title composer : option string) : result AnimationData :=
  try_except
    (root <- et_parse env musicxml_path ;;
     let metadata := _extract_metadata root title composer in
     notes <- _extract_notes root ;;
     let duration := _calculate_duration notes in
     tempo <- _extract_tempo root ;;
     keySignature <- _extract_key_signature root ;;
     let timeSignature := _extract_time_signature root in
     Ok {| metadata := metadata; notes := notes; total_duration := duration;
           tempo := tempo; keySignature := keySignature;
           timeSignature := timeSignature;
           generated_at := isoformat (utcnow env) |})
    any_exception (fun e => Raise e).

(* ===================================================================== *)
(** * Views of the extraction used in the statements                      *)
(* ===================================================================== *)

(** What [_parse_note_element] hands to the loop. *)
Definition emitted (note_elem : Element) (t : float) (hand : string)
    : option NoteEvent :=
  match _parse_note_element note_elem t hand with
  | Ok r => r
  | Raise _ => None
  end.

(** The events that a run of [note] elements adds to [notes] when the
    cursor is [t], and the cursor afterwards. *)
Fixpoint note_events (hand : string) (l : list Element) (t : float)
    : list NoteEvent * float :=
  match l with
  | [] => ([], t)
  | e :: l' =>
      match emitted e t hand with
      | Some nd =>
          let '(evs, t') := note_events hand l' (end_time nd) in (nd :: evs, t')
      | None => note_events hand l' t
      end
  end.

(** The [note] elements of a part in the order in which the two inner
    loops visit them. *)
Definition part_note_elems (part : Element) : list Element :=
  flat_map (findall "note") (findall "measure" part).

(** The events of one part, in extraction order. *)
Definition part_events (hand : string) (part : Element) : list NoteEvent :=
  fst (note_events hand (part_note_elems part) f0_0).

(** The events of each of the parts [parts], the first of which has
    index [i]. *)
Fixpoint events_by_part (i : nat) (parts : list Element)
    : list (list NoteEvent) :=
  match parts with
  | [] => []
  | p :: ps => part_events (hand_of i) p :: events_by_part (S i) ps
  end.

(** The same events, one part after the other. *)
Definition events_from (i : nat) (parts : list Element) : list NoteEvent :=
  List.concat (events_by_part i parts).

(** [notes] before the final sort. *)
Definition extracted (root : Element) : list NoteEvent :=
  events_from 0 (findall_desc "part" root).

(** Each event starts where the cursor is and moves it to its end. *)
Fixpoint chained (t : float) (evs : list NoteEvent) : Prop :=
  match evs with
  | [] => True
  | ev :: evs' => start ev = t /\ chained (end_time ev) evs'
  end.



(* ===================================================================== *)
(** * Sample documents                                                    *)
(* ===================================================================== *)

Module Sample.

Definition leaf (t s : string) : Element := Elem t [] (Some s) [].

(** [<note><pitch><step>s</step><octave>o</octave></pitch>
     <duration>d</duration></note>] *)
Definition pitched (s o d : string) : Element :=
  Elem "note" [] None
    [Elem "pitch" [] None [leaf "step" s; leaf "octave" o]; leaf "duration" d].

(** A pitched note with a fingering mark [f]. *)
Definition fingered (s o d f : string) : Element :=
  Elem "note" [] None
    [Elem "pitch" [] None [leaf "step" s; leaf "octave" o]; leaf "duration" d;
     Elem "notations" [] None
       [Elem "technical" [] None [leaf "fingering" f]]].

Definition rest_note (d : string) : Element :=
  Elem "note" [] None [Elem "rest" [] None []; leaf "duration" d].

Definition part_of (notes : list Element) : Element :=
  Elem "part" [] None [Elem "measure" [] None notes].

Definition score (body : list Element) : Element :=
  Elem "score-partwise" [] None body.

(** No parts, measures or notes. *)
Definition empty_score : Element := score [].

(** One part, two notes of one duration unit each. *)
Definition two_quarters : Element :=
  score [part_of [pitched "C" "4" "1"; pitched "D" "4" "1"]].

(** A pitch below the keyboard: C0. *)
Definition low_c : Element := pitched "C" "0" "4".


Definition tempo_inf : Element :=
  score [Elem "direction" [] None [leaf "per-minute" "inf"]].

Definition tempo_fraction : Element :=
  score [Elem "direction" [] None [leaf "per-minute" "90.7"]].

(** A key signature whose [fifths] is not a number. *)
Definition bad_key : Element :=
  score [part_of [Elem "attributes" [] None
                    [Elem "key" [] None [leaf "fifths" "two"]]]].



(** Two parts whose first notes start together. *)
Definition two_hands : Element :=
  score [part_of [pitched "C" "4" "4"; pitched "D" "4" "4"];
         part_of [pitched "C" "3" "8"; pitched "G" "3" "4"]].

Definition clock_a : datetime :=
  {| year := 2024; month := 3; day := 9; hour := 7; minute := 5;
     second := 1; microsecond := 0 |}.
Definition clock_b : datetime :=
  {| year := 2024; month := 3; day := 9; hour := 7; minute := 5;
     second := 2; microsecond := 0 |}.

(** A file system that holds [root] at ["score.musicxml"] and nothing
    else, and a clock that reads [now]. *)
Definition env_with (root : Element) (now : datetime) : Env :=
  {| et_parse := fun path =>
       if (path =? "score.musicxml")%string then Ok root else Raise OSError;
     utcnow := now |}.

End Sample.

Import Sample.

(* ===================================================================== *)
(** * The display names of the keys                                       *)
(* ===================================================================== *)

(** A [dict], as the list of its items in insertion order. *)
Section Dict.
Context {K V : Type} (eqb : K -> K -> bool).

(** [d.get(k)] *)
Fixpoint dict_get (k : K) (d : list (K * V)) : option V :=
  match d with
  | [] => None
  | (k', v) :: d' => if eqb k' k then Some v else dict_get k d'
  end.

(** [d[k] = v]: the value of an existing key is replaced where it is, a
    new key is added at the end. *)
Fixpoint dict_set (d : list (K * V)) (k : K) (v : V) : list (K * V) :=
  match d with
  | [] => [(k, v)]
  | (k', v') :: d' =>
      if eqb k' k then (k', v) :: d' else (k', v') :: dict_set d' k v
  end.
End Dict.

(** [range(a, b)] *)
Definition range (a b : Z) : list Z :=
  map (fun i => a + Z.of_nat i) (seq 0 (Z.to_nat (b - a))).

(** [str(n)] for an int. *)
Definition str_of_int (n : Z) : string := NilZero.string_of_int (Z.to_int n).

(** [note_names] in [_build_midi_mapping] *)
Definition note_names : list string :=
  ["C"; "C#"; "D"; "D#"; "E"; "F"; "F#"; "G"; "G#"; "A"; "A#"; "B"].

(** The body of the loop of [_build_midi_mapping]; [//] and [%] round
    towards minus infinity, as [Z.div] and [Z.modulo] do for the divisor
    12, so the index into [note_names] is within the list. *)
Definition midi_mapping_step (midi_to_note : list (Z * string)) (midi_num : Z)
    : list (Z * string) :=
  let octave := (midi_num - 12) / 12 in
  let note_index := (midi_num - 12) mod 12 in
  let note_name :=
    (nth (Z.to_nat note_index) note_names "" ++ str_of_int octave)%string in
  dict_set Z.eqb midi_to_note midi_num note_name.

(** [self.midi_to_note] after [__init__], which runs
    [_build_midi_mapping] on the empty dictionary. *)
Definition _build_midi_mapping : list (Z * string) :=
  fold_left midi_mapping_step (range 21 109) [].

(** The key whose display name is [name], if there is one. *)
Definition key_named (name : string) : option Z :=
  match List.find (fun kv => (snd kv =? name)%string) _build_midi_mapping with
  | Some (k, _) => Some k
  | None => None
  end.

(** A float that is a zero, a positive number or plus infinity. *)
Definition nonneg_float (x : float) : bool :=
  match x with
  | S754_zero _ | S754_infinity false | S754_finite false _ _ => true
  | _ => false
  end.

(** Every [duration] that the loops of [_extract_notes] can read is a
    non-negative float. *)
Definition durations_nonneg (root : Element) : bool :=
  forallb
    (fun part =>
       forallb (fun e => match note_duration e with
                         | Ok d => nonneg_float d
                         | Raise _ => true
                         end)
               (part_note_elems part))
    (findall_desc "part" root).

(* ===================================================================== *)
(** * omr/storage.py: SupabaseStorage                                     *)
(* ===================================================================== *)

Module Storage.

(** The object after [__init__]: two environment variables, each a
    string or [None]. *)
Record SupabaseStorage : Type := {
  supabase_url : option string;
  supabase_key : option string
}.

(** [self.bucket_name] *)
Definition bucket_name : string := "animation-data".

(** What the methods do to the outside, in the order in which they do
    it. *)
Inductive action : Type :=
| HttpPost (url content : string) (headers : list (string * string))
| HttpGet (url : string) (headers : list (string * string))
| MakeDirs (path : string)
| WriteJson (path : string) (data : AnimationData).

(** What the outside answers.  [clock n] is reading number [n] of
    [datetime.utcnow()]; [os_makedirs n] and [write_json n] are the
    outcomes of [os.makedirs] and of [open] followed by [json.dump] in
    call number [n] of [_save_local_fallback]; a request gives a status
    code or raises. *)
Record World : Type := {
  clock : nat -> datetime;
  json_dumps : AnimationData -> result string;
  http_post : string -> string -> list (string * string) -> result Z;
  http_get : string -> list (string * string) -> result Z;
  os_makedirs : nat -> string -> result unit;
  write_json : nat -> string -> AnimationData -> result unit
}.

(** The clock readings and the calls of [_save_local_fallback] made so
    far, and the actions so far. *)
Record State : Type := {
  ticks : nat;
  saves : nat;
  log : list action
}.

Definition initial : State := {| ticks := O; saves := O; log := [] |}.

(** [d.strftime("%Y%m%d_%H%M%S")], for a year of four digits. *)
Definition strftime_stamp (d : datetime) : string :=
  string_of_list_ascii
    (pad_digits 4 (year d) ++ pad_digits 2 (month d) ++ pad_digits 2 (day d)
     ++ ["_"%char] ++ pad_digits 2 (hour d) ++ pad_digits 2 (minute d)
     ++ pad_digits 2 (second d)).

(** [f"{timestamp}_{job_id}.json"] *)
Definition json_filename (timestamp job_id : string) : string :=
  (timestamp ++ "_" ++ job_id ++ ".json")%string.

(** [_save_local_fallback(job_id, animation_data, title)].  The file name
    starts with a digit, so [os.path.join] puts it behind the directory;
    an exception is logged and raised again. *)
Definition _save_local_fallback (w : World) (st : State) (job_id : string)
    (animation_data : AnimationData) (title : string)
    : State * result string :=
  let local_storage_dir := "/tmp/results" in
  let n := saves st in
  let st1 := {| ticks := ticks st; saves := S n;
                log := log st ++ [MakeDirs local_storage_dir] |} in
  match os_makedirs w n local_storage_dir with
  | Raise e => (st1, Raise e)
  | Ok _ =>
      let timestamp := strftime_stamp (clock w (ticks st1)) in
      let filename := json_filename timestamp job_id in
      let filepath := (local_storage_dir ++ "/" ++ filename)%string in
      let st2 := {| ticks := S (ticks st1); saves := saves st1;
                    log := log st1 ++ [WriteJson filepath animation_data] |} in
      match write_json w n filepath animation_data with
      | Raise e => (st2, Raise e)
      | Ok _ => (st2, Ok ("file://" ++ filepath)%string)
      end
  end.

(** [not self.supabase_url or not self.supabase_key] *)
Definition unconfigured (self : SupabaseStorage) : bool :=
  negb (truthy (supabase_url self)) || negb (truthy (supabase_key self)).

(** [response.status_code not in [200, 201]] *)
Definition not_created (status_code : Z) : bool :=
  negb (existsb (Z.eqb status_code) [200; 201]).

(** The [try] block of [upload_animation_data]. *)
Definition upload_body (w : World) (self : SupabaseStorage) (st : State)
    (job_id : string) (animation_data : AnimationData) (title : string)
    : State * result string :=
  if unconfigured self then
    _save_local_fallback w st job_id animation_data title
  else
    let url := format_text (supabase_url self) in
    let key := format_text (supabase_key self) in
    let timestamp := strftime_stamp (clock w (ticks st)) in
    let st1 := {| ticks := S (ticks st); saves := saves st; log := log st |} in
    let filename := json_filename timestamp job_id in
    match json_dumps w animation_data with
    | Raise e => (st1, Raise e)
    | Ok json_content =>
        let headers :=
          [("Authorization", ("Bearer " ++ key)%string);
           ("Content-Type", "application/json");
           ("apikey", key)] in
        let upload_url :=
          (url ++ "/storage/v1/object/" ++ bucket_name ++ "/" ++ filename)%string in
        let st2 := {| ticks := ticks st1; saves := saves st1;
                      log := log st1 ++ [HttpPost upload_url json_content headers] |} in
        match http_post w upload_url json_content headers with
        | Raise e => (st2, Raise e)
        | Ok status_code =>
            if not_created status_code then
              _save_local_fallback w st2 job_id animation_data title
            else
              (st2, Ok (url ++ "/storage/v1/object/public/" ++ bucket_name
                            ++ "/" ++ filename)%string)
        end
    end.

(** [upload_animation_data(job_id, animation_data, title, user_id)]:
    whatever the [try] block raises, the handler saves locally. *)
Definition upload_animation_data (w : World) (self : SupabaseStorage)
    (st : State) (job_id : string) (animation_data : AnimationData)
    (title : string) (user_id : option string) : State * result string :=
  match upload_body w self st job_id animation_data title with
  | (st', Ok locator) => (st', Ok locator)
  | (st', Raise _) => _save_local_fallback w st' job_id animation_data title
  end.

(** [test_connection()] *)
Definition test_connection (w : World) (self : SupabaseStorage) (st : State)
    : State * result bool :=
  if unconfigured self then (st, Ok false)
  else
    let url := format_text (supabase_url self) in
    let key := format_text (supabase_key self) in
    let headers :=
      [("Authorization", ("Bearer " ++ key)%string); ("apikey", key)] in
    let test_url := (url ++ "/storage/v1/bucket")%string in
    let st1 := {| ticks := ticks st; saves := saves st;
                  log := log st ++ [HttpGet test_url headers] |} in
    match http_get w test_url headers with
    | Ok status_code => (st1, Ok (status_code =? 200))
    | Raise _ => (st1, Ok false)
    end.

Definition is_post (a : action) : bool :=
  match a with HttpPost _ _ _ => true | _ => false end.

Definition is_request (a : action) : bool :=
  match a with HttpPost _ _ _ | HttpGet _ _ => true | _ => false end.

Definition is_write (a : action) : bool :=
  match a with WriteJson _ _ => true | _ => false end.

(** The locator that [_save_local_fallback] returns with clock reading
    [d]. *)
Definition local_locator (d : datetime) (job_id : string) : string :=
  ("file:///tmp/results/" ++ json_filename (strftime_stamp d) job_id)%string.

(** The locator of an upload made with clock reading [d]. *)
Definition public_locator (self : SupabaseStorage) (d : datetime)
    (job_id : string) : string :=
  (format_text (supabase_url self) ++ "/storage/v1/object/public/"
   ++ bucket_name ++ "/" ++ json_filename (strftime_stamp d) job_id)%string.

End Storage.

(* ===================================================================== *)
(** * app.py: the job table and the processing pipeline                   *)
(* ===================================================================== *)

Module App.

(** [class ProcessingStatus] *)
Definition PENDING : string := "pending".
Definition PROCESSING : string := "processing".
Definition COMPLETED : string := "completed".
Definition FAILED : string := "failed".

(** The value under ["file_info"]. *)
Record FileInfo : Type := {
  info_filename : string;
  info_title : option string;
  info_composer : option string;
  info_user_id : option string
}.

(** The value under ["result"]. *)
Record JobResult : Type := {
  animation_data_url : string;
  result_title : string;
  result_composer : option string;
  processed_at : string
}.

(** An entry of [processing_jobs].  The keys ["result"] and ["error"]
    are absent until they are assigned. *)
Record Job : Type := {
  status : string;
  progress : Z;
  message : string;
  created_at : string;
  file_info : FileInfo;
  job_result : option JobResult;
  job_error : option string
}.

(** [processing_jobs] *)
Definition Jobs : Type := list (string * Job).

(** What the functions raise. *)
Inductive failure : Type :=
| HTTPException (status_code : Z) (detail : string)
| KeyError (key : string).

Inductive response (A : Type) : Type :=
| Return (a : A)
| Fail (f : failure).
Arguments Return {A} a.
Arguments Fail {A} f.

(** [s.lower()] *)
Definition str_lower (s : string) : string :=
  string_of_list_ascii (map lower (list_ascii_of_string s)).

(** [s.endswith(suffix)] *)
Definition endswith (s suffix : string) : bool :=
  (String.length suffix <=? String.length s)%nat &&
  (substring (String.length s - String.length suffix) (String.length suffix) s
   =? suffix)%string.

(** [title or file.filename] *)
Definition title_or (title : option string) (filename : string) : string :=
  match title with
  | Some (String c t) => String c t
  | _ => filename
  end.

(** The arguments of a task added to [background_tasks]. *)
Record Task : Type := {
  task_job_id : string;
  task_filename : string;
  task_title : option string;
  task_composer : option string;
  task_user_id : option string
}.

(** The dictionary that [process_pdf] returns. *)
Record Accepted : Type := {
  acc_job_id : string;
  acc_status : string;
  acc_message : string
}.

(** [process_pdf(background_tasks, file, title, composer, user_id)].
    [uuid4] is the value of [str(uuid.uuid4())] and [now] the reading of
    the clock in this call. *)
Definition process_pdf (processing_jobs : Jobs) (background_tasks : list Task)
    (uuid4 : string) (now : datetime) (filename : string)
    (title composer user_id : option string)
    : Jobs * list Task * response Accepted :=
  if negb (endswith (str_lower filename) ".pdf") then
    (processing_jobs, background_tasks,
     Fail (HTTPException 400 "Only PDF files are supported"))
  else
    let job_id := uuid4 in
    let job :=
      {| status := PENDING; progress := 0;
         message := "Job queued for processing";
         created_at := isoformat now;
         file_info := {| info_filename := filename; info_title := title;
                         info_composer := composer;
                         info_user_id := user_id |};
         job_result := None; job_error := None |} in
    (dict_set String.eqb processing_jobs job_id job,
     background_tasks
       ++ [{| task_job_id := job_id; task_filename := filename;
              task_title := title; task_composer := composer;
              task_user_id := user_id |}],
     Return {| acc_job_id := job_id; acc_status := PENDING;
               acc_message := "PDF processing started" |}).

(** [get_processing_status(job_id)] *)
Definition get_processing_status (processing_jobs : Jobs) (job_id : string)
    : response Job :=
  match dict_get String.eqb job_id processing_jobs with
  | None => Fail (HTTPException 404 "Job not found")
  | Some job => Return job
  end.

(** What a collaborator does when it is awaited: it returns, or it raises
    an exception [e], of which the handler uses [str(e)]. *)
Inductive stage (A : Type) : Type :=
| Done (a : A)
| Raised (str_e : string).
Arguments Done {A} a.
Arguments Raised {A} str_e.

(** The collaborators of one run of [process_pdf_background]:
    the saving of the upload ([mkdir], [open], [read], [write]), the OMR
    processor, the converter given the path of the MusicXML file, the
    storage given the data and the title, whether the temporary directory
    exists when the handler looks, and the clock at the end. *)
Record Stages : Type := {
  save_upload : stage unit;
  omr_process_pdf : stage string;
  converter_convert : string -> stage AnimationData;
  storage_upload : AnimationData -> string -> stage string;
  temp_dir_exists : bool;
  utcnow_end : datetime
}.

(** The calls made to the outside, in order. *)
Inductive call : Type :=
| SaveUpload
| OmrProcessPdf
| ConverterConvert (musicxml_path : string)
| StorageUpload (data : AnimationData) (title : string)
| RemoveTree.

(** [processing_jobs[job_id]["progress"] = p] and
    [processing_jobs[job_id]["message"] = m] *)
Definition at_stage (j : Job) (p : Z) (m : string) : Job :=
  {| status := status j; progress := p; message := m;
     created_at := created_at j; file_info := file_info j;
     job_result := job_result j; job_error := job_error j |}.

(** The assignments of the [except] clause. *)
Definition mark_failed (j : Job) (str_e : string) : Job :=
  {| status := FAILED; progress := progress j;
     message := ("Processing failed: " ++ str_e)%string;
     created_at := created_at j; file_info := file_info j;
     job_result := job_result j; job_error := Some str_e |}.

(** The cleanup of the [except] clause. *)
Definition cleanup_on_error (s : Stages) : list call :=
  if temp_dir_exists s then [RemoveTree] else [].

(** The run on a job that is in the table: the successive values of the
    job, one for each group of assignments, and the calls made. *)
Definition background_run (s : Stages) (j0 : Job) (filename : string)
    (title composer : option string) : list Job * list call :=
  let j1 := {| status := PROCESSING; progress := 10;
               message := "Saving uploaded file";
               created_at := created_at j0; file_info := file_info j0;
               job_result := job_result j0; job_error := job_error j0 |} in
  match save_upload s with
  | Raised e => ([j1; mark_failed j1 e], [SaveUpload] ++ cleanup_on_error s)
  | Done _ =>
      let j2 := at_stage j1 30 "Processing PDF with Audiveris OMR" in
      match omr_process_pdf s with
      | Raised e =>
          ([j1; j2; mark_failed j2 e],
           [SaveUpload; OmrProcessPdf] ++ cleanup_on_error s)
      | Done musicxml_path =>
          let j3 := at_stage j2 60 "Converting to ClairKeys format" in
          match converter_convert s musicxml_path with
          | Raised e =>
              ([j1; j2; j3; mark_failed j3 e],
               [SaveUpload; OmrProcessPdf; ConverterConvert musicxml_path]
                 ++ cleanup_on_error s)
          | Done clairkeys_data =>
              let j4 := at_stage j3 80 "Uploading result to storage" in
              let t := title_or title filename in
              match storage_upload s clairkeys_data t with
              | Raised e =>
                  ([j1; j2; j3; j4; mark_failed j4 e],
                   [SaveUpload; OmrProcessPdf; ConverterConvert musicxml_path;
                    StorageUpload clairkeys_data t] ++ cleanup_on_error s)
              | Done storage_url =>
                  let j5 :=
                    {| status := COMPLETED; progress := 100;
                       message := "Processing completed successfully";
                       created_at := created_at j4;
                       file_info := file_info j4;
                       job_result :=
                         Some {| animation_data_url := storage_url;
                                 result_title := t;
                                 result_composer := composer;
                                 processed_at := isoformat (utcnow_end s) |};
                       job_error := job_error j4 |} in
                  ([j1; j2; j3; j4; j5],
                   [SaveUpload; OmrProcessPdf; ConverterConvert musicxml_path;
                    StorageUpload clairkeys_data t; RemoveTree])
              end
          end
      end
  end.

(** [process_pdf_background(job_id, file, title, composer, user_id)].
    Without an entry for [job_id] the first assignment raises [KeyError],
    and so does the first assignment of the handler. *)
Definition process_pdf_background (s : Stages) (processing_jobs : Jobs)
    (job_id filename : string) (title composer user_id : option string)
    : Jobs * list Job * list call * response unit :=
  match dict_get String.eqb job_id processing_jobs with
  | None => (processing_jobs, [], [], Fail (KeyError job_id))
  | Some j0 =>
      let '(trace, calls) := background_run s j0 filename title composer in
      (dict_set String.eqb processing_jobs job_id (last trace j0),
       trace, calls, Return tt)
  end.

(** All four collaborators return. *)
Definition all_done (s : Stages) (filename : string) (title : option string)
    : bool :=
  match save_upload s, omr_process_pdf s with
  | Done _, Done musicxml_path =>
      match converter_convert s musicxml_path with
      | Done data =>
          match storage_upload s data (title_or title filename) with
          | Done _ => true
          | Raised _ => false
          end
      | Raised _ => false
      end
  | _, _ => false
  end.

Definition is_remote_call (c : call) : bool :=
  match c with
  | OmrProcessPdf | ConverterConvert _ | StorageUpload _ _ => true
  | _ => false
  end.

End App.

(* ===================================================================== *)
(** * Sample worlds and jobs                                              *)
(* ===================================================================== *)

Module SampleRun.

(** The result of converting the empty score at [clock_a]. *)
Definition empty_data : AnimationData :=
  {| metadata := {| title := "Untitled"; composer := "Unknown" |};
     notes := [];
     total_duration := f0_0; tempo := 120; keySignature := "C";
     timeSignature := "4/4"; generated_at := isoformat clock_a |}.

Definition configured : Storage.SupabaseStorage :=
  {| Storage.supabase_url := Some "https://example.supabase.co";
     Storage.supabase_key := Some "anon-key" |}.

Definition no_settings : Storage.SupabaseStorage :=
  {| Storage.supabase_url := None; Storage.supabase_key := None |}.

(** A world in which every request is answered with [status_code] and
    the local disk fails in the calls listed in [bad_saves]. *)
Definition world (status_code : Z) (bad_saves : list nat) : Storage.World :=
  {| Storage.clock := fun n => if Nat.even n then clock_a else clock_b;
     Storage.json_dumps := fun _ => Ok "{}";
     Storage.http_post := fun _ _ _ => Ok status_code;
     Storage.http_get := fun _ _ => Ok status_code;
     Storage.os_makedirs :=
       fun n _ => if existsb (Nat.eqb n) bad_saves then Raise OSError
                  else Ok tt;
     Storage.write_json := fun _ _ _ => Ok tt |}.

(** A job as [process_pdf] creates it. *)
Definition queued : App.Job :=
  {| App.status := App.PENDING; App.progress := 0;
     App.message := "Job queued for processing";
     App.created_at := isoformat clock_a;
     App.file_info := {| App.info_filename := "waltz.pdf";
                         App.info_title := None;
                         App.info_composer := None;
                         App.info_user_id := None |};
     App.job_result := None; App.job_error := None |}.

(** Collaborators that all return. *)
Definition smooth : App.Stages :=
  {| App.save_upload := App.Done tt;
     App.omr_process_pdf := App.Done "/data/processing/j1/output.xml";
     App.converter_convert := fun _ => App.Done empty_data;
     App.storage_upload := fun _ _ => App.Done "file:///tmp/results/x.json";
     App.temp_dir_exists := true;
     App.utcnow_end := clock_b |}.

(** Collaborators of which the OMR processor raises. *)
Definition omr_fails : App.Stages :=
  {| App.save_upload := App.Done tt;
     App.omr_process_pdf := App.Raised "No MusicXML output file generated";
     App.converter_convert := fun _ => App.Done empty_data;
     App.storage_upload := fun _ _ => App.Done "file:///tmp/results/x.json";
     App.temp_dir_exists := true;
     App.utcnow_end := clock_b |}.

End SampleRun.

(* ===================================================================== *)
(** * The order on floats                                                 *)
(* ===================================================================== *)

(** The float constants are the values of the literals. *)
Example float_literals :
  map float_of_string ["0.0"; "0.25"; "0.5"; "1.0"; "4.0"]
  = map Ok [f0_0; f0_25; f0_5; f1_0; f4_0].
Proof. reflexivity. Qed.

Lemma compare_cont_Eq (m1 m2 : positive) :
  Pos.compare_cont Eq m1 m2 = Pos.compare m1 m2.
Proof. reflexivity. Qed.

(** Case analysis on every comparison of exponents and mantissas that
    occurs in the goal or in a hypothesis. *)
Ltac order_cases :=
  rewrite ?compare_cont_Eq in *;
  repeat match goal with
  | H : context [Z.compare ?a ?b] |- _ =>
      destruct (Z.compare_spec a b); simpl in H; try discriminate H
  | H : context [Pos.compare ?a ?b] |- _ =>
      destruct (Pos.compare_spec a b); simpl in H; try discriminate H
  | |- context [Z.compare ?a ?b] => destruct (Z.compare_spec a b); simpl
  | |- context [Pos.compare ?a ?b] => destruct (Pos.compare_spec a b); simpl
  end;
  subst; try reflexivity; try discriminate; try lia.

Ltac float_cases x :=
  destruct x as [[]|[]| |[] ? ?]; simpl in *; try discriminate; try reflexivity.

Ltac unfold_order :=
  unfold flt, fle, feq, SFltb, SFleb, SFeqb, SFcompare in *.


Lemma fle_trans (x y z : float) :
  fle x y = true -> fle y z = true -> fle x z = true.
Proof.
  unfold_order. intros Hxy Hyz.
  float_cases x; float_cases y; float_cases z; order_cases.
Qed.


Lemma flt_fle (x y : float) : flt x y = true -> fle x y = true.
Proof. unfold_order. intros H. float_cases x; float_cases y; order_cases. Qed.

(** Two floats that are not NaN are comparable. *)
Lemma fle_total (x y : float) :
  is_nan x = false -> is_nan y = false -> flt y x = false -> fle x y = true.
Proof.
  unfold_order. intros Hx Hy H.
  float_cases x; float_cases y; order_cases.
Qed.


(* ===================================================================== *)
(** * [max] and [list.sort]                                               *)
(* ===================================================================== *)






Section SortFacts.
Context {A : Type} (key : A -> float).

Lemma insert_by_perm (a : A) (s : list A) :
  Permutation (insert_by key a s) (a :: s).
Proof.
  induction s as [|y s IH]; simpl; [reflexivity|].
  destruct (flt (key y) (key a)); [|reflexivity].
  rewrite IH. apply perm_swap.
Qed.

(** The sorted list has the elements of the list, each as often. *)
Lemma sort_by_perm (l : list A) : Permutation (sort_by key l) l.
Proof.
  induction l as [|a l IH]; simpl; [reflexivity|].
  rewrite insert_by_perm. now constructor.
Qed.

Lemma insert_by_sorted (a : A) (s : list A) :
  is_nan (key a) = false -> no_nan_keys key s = true ->
  ascending_by key s -> ascending_by key (insert_by key a s).
Proof.
  unfold ascending_by, no_nan_keys.
  intros Ha. induction s as [|y s IH]; intros Hs Hsorted; simpl.
  - repeat constructor.
  - simpl in Hs. apply andb_prop in Hs as [Hy Hs].
    apply negb_true_iff in Hy.
    inversion Hsorted as [|? ? Hs' Hall]; subst.
    destruct (flt (key y) (key a)) eqn:E.
    + constructor; [now apply IH|].
      apply Permutation_Forall with (a :: s);
        [symmetry; apply insert_by_perm|].
      constructor; [now apply flt_fle | exact Hall].
    + assert (Hay : fle (key a) (key y) = true) by now apply fle_total.
      constructor; [exact Hsorted|].
      constructor; [exact Hay|].
      eapply Forall_impl; [|exact Hall].
      intros z Hz. now apply fle_trans with (key y).
Qed.

Lemma forallb_perm (f : A -> bool) (l l' : list A) :
  Permutation l l' -> forallb f l = forallb f l'.
Proof.
  induction 1; simpl; try congruence.
  - now rewrite !andb_assoc, (andb_comm (f y)).
Qed.

(** On keys without NaN the result is in ascending order of the keys. *)
Lemma sort_by_sorted (l : list A) :
  no_nan_keys key l = true -> ascending_by key (sort_by key l).
Proof.
  induction l as [|a l IH]; simpl; intros H; [constructor|].
  apply andb_prop in H as [Ha Hl]. apply negb_true_iff in Ha.
  apply insert_by_sorted; auto.
  unfold no_nan_keys. now rewrite (forallb_perm _ _ _ (sort_by_perm l)).
Qed.


End SortFacts.

(* ===================================================================== *)
(** * [_note_to_midi] and [_parse_note_element]                           *)
(* ===================================================================== *)

Arguments find : simpl never.
Arguments find_desc : simpl never.
Arguments findall : simpl never.
Arguments float_of_text : simpl never.
Arguments int_of_text : simpl never.
Arguments int_of_string : simpl never.
Arguments note_duration : simpl never.
Arguments note_fingering : simpl never.
Arguments pitch_alter : simpl never.
Arguments _note_to_midi : simpl never.
Arguments fadd : simpl never.
Arguments fdiv : simpl never.

(** [_parse_note_element] returns; it never raises. *)
Lemma parse_note_element_returns (e : Element) (t : float) (h : string) :
  _parse_note_element e t h = Ok (emitted e t h).
Proof.
  unfold emitted, _parse_note_element, try_except.
  now destruct (parse_note_body e t h).
Qed.

(** A key number that [_note_to_midi] returns is on the keyboard. *)
Lemma note_to_midi_range (step : option string) (octave alter k : Z) :
  _note_to_midi step octave alter = Some k -> 21 <= k <= 108.
Proof.
  unfold _note_to_midi. destruct step as [s|]; [|discriminate].
  destruct (lookup s base_notes) as [b|]; [|discriminate].
  destruct ((21 <=? _) && (_ <=? 108)) eqn:E; [|discriminate].
  intros [= <-]. apply andb_prop in E as [E1 E2]. lia.
Qed.

Lemma clamp_finger_range (f : option Z) (n : Z) :
  clamp_finger f = Some n -> 1 <= n <= 5.
Proof.
  destruct f as [m|]; [|discriminate]. simpl.
  destruct ((m <? 1) || (5 <? m)) eqn:E; [discriminate|].
  intros [= <-]. apply orb_false_elim in E as [E1 E2]. lia.
Qed.

(** What is known of an element for which an event is emitted. *)
Lemma emitted_inv (e : Element) (t : float) (h : string) (ev : NoteEvent) :
  emitted e t h = Some ev ->
  find "rest" e = None /\
  exists pitch_elem step octave_text octave alter d f,
    find "pitch" e = Some pitch_elem /\
    text_of (find "step" pitch_elem) = Ok step /\
    text_of (find "octave" pitch_elem) = Ok octave_text /\
    int_of_text octave_text = Ok octave /\
    pitch_alter pitch_elem = Ok alter /\
    _note_to_midi step octave alter = Some (midi ev) /\
    note_duration e = Ok d /\
    note_fingering e = Ok f /\
    ev = {| midi := midi ev; start := t; duration := d; hand := h;
            finger := clamp_finger f |}.
Proof.
  unfold emitted, _parse_note_element, try_except, parse_note_body.
  destruct (find "rest" e) eqn:Hrest; simpl.
  { destruct (find "duration" e); simpl;
      [destruct (float_of_text _); simpl|]; discriminate. }
  destruct (find "pitch" e) as [p|] eqn:Hp; [|discriminate].
  destruct (text_of (find "step" p)) as [step|] eqn:Hs; simpl; [|discriminate].
  destruct (text_of (find "octave" p)) as [ot|] eqn:Ho; simpl; [|discriminate].
  destruct (int_of_text ot) as [o|] eqn:Hi; simpl; [|discriminate].
  destruct (pitch_alter p) as [a|] eqn:Ha; simpl; [|discriminate].
  destruct (_note_to_midi step o a) as [k|] eqn:Hk; [|discriminate].
  destruct (note_duration e) as [d|] eqn:Hd; simpl; [|discriminate].
  destruct (note_fingering e) as [f|] eqn:Hf; simpl; [|discriminate].
  intros [= <-]. split; [reflexivity|].
  exists p, step, ot, o, a, d, f. simpl. repeat split; assumption.
Qed.

(** An element with a [rest] child yields no event. *)
Lemma emitted_rest (e : Element) (t : float) (h : string) :
  is_some (find "rest" e) = true -> emitted e t h = None.
Proof.
  intros H. destruct (emitted e t h) as [ev|] eqn:E; [|reflexivity].
  apply emitted_inv in E as [E _]. rewrite E in H. discriminate.
Qed.

(** Every emitted event has the cursor as its start, the hand of the
    part, a key number on the keyboard and a finger that is absent or
    between 1 and 5. *)
Lemma emitted_fields (e : Element) (t : float) (h : string) (ev : NoteEvent) :
  emitted e t h = Some ev ->
  start ev = t /\ hand ev = h /\ 21 <= midi ev <= 108 /\
  (finger ev = None \/ exists n, finger ev = Some n /\ 1 <= n <= 5).
Proof.
  intros H. apply emitted_inv in H
    as (_ & p & step & ot & o & a & d & f & _ & _ & _ & _ & _ & Hk & _ & _ & Hev).
  apply note_to_midi_range in Hk.
  rewrite Hev. simpl. repeat split; try lia.
  destruct (clamp_finger f) as [n|] eqn:Hc; [right|now left].
  exists n. split; [reflexivity|]. now apply clamp_finger_range with f.
Qed.

(* ===================================================================== *)
(** * The loops of [_extract_notes]                                       *)
(* ===================================================================== *)

Lemma note_loop (hand : string) (l : list Element) :
  forall notes t,
    for_each (note_step hand) l (notes, t)
    = Ok (notes ++ fst (note_events hand l t), snd (note_events hand l t)).
Proof.
  induction l as [|e l IH]; intros notes t; simpl.
  - now rewrite app_nil_r.
  - rewrite parse_note_element_returns. simpl.
    destruct (emitted e t hand) as [nd|]; simpl.
    + rewrite IH. fold (end_time nd).
      destruct (note_events hand l (end_time nd)) as [evs t'].
      simpl. now rewrite <- app_assoc.
    + apply IH.
Qed.

Lemma note_events_app (hand : string) (l1 l2 : list Element) :
  forall t,
    note_events hand (l1 ++ l2) t
    = (fst (note_events hand l1 t)
         ++ fst (note_events hand l2 (snd (note_events hand l1 t))),
       snd (note_events hand l2 (snd (note_events hand l1 t)))).
Proof.
  induction l1 as [|e l1 IH]; intros t; simpl.
  - now destruct (note_events hand l2 t).
  - destruct (emitted e t hand) as [nd|].
    + rewrite IH. destruct (note_events hand l1 (end_time nd)). reflexivity.
    + apply IH.
Qed.

Lemma measure_loop (hand : string) (ms : list Element) :
  forall notes t,
    for_each (measure_step hand) ms (notes, t)
    = Ok (notes ++ fst (note_events hand (flat_map (findall "note") ms) t),
          snd (note_events hand (flat_map (findall "note") ms) t)).
Proof.
  induction ms as [|m ms IH]; intros notes t; simpl.
  - now rewrite app_nil_r.
  - unfold measure_step at 1. rewrite note_loop. simpl.
    rewrite IH, note_events_app. simpl. now rewrite <- app_assoc.
Qed.

Lemma part_loop (parts : list Element) :
  forall notes i,
    for_each part_step parts (notes, i)
    = Ok (notes ++ events_from i parts, (i + List.length parts)%nat).
Proof.
  induction parts as [|p ps IH]; intros notes i; simpl.
  - now rewrite app_nil_r, Nat.add_0_r.
  - rewrite measure_loop. simpl. rewrite IH.
    unfold part_events, part_note_elems.
    now rewrite <- app_assoc, Nat.add_succ_r.
Qed.

(** [part_events] is what the loop over the measures of a part adds to
    an empty [notes]. *)
Lemma part_events_loop (hand : string) (part : Element) :
  exists t',
    for_each (measure_step hand) (findall "measure" part) ([], f0_0)
    = Ok (part_events hand part, t').
Proof. rewrite measure_loop. simpl. eexists. reflexivity. Qed.

(** [_extract_notes] returns, and what it returns is the stable sort of
    the events in extraction order. *)
Lemma extract_notes_returns (root : Element) :
  _extract_notes root = Ok (sort_by start (extracted root)).
Proof.
  unfold _extract_notes, extracted. now rewrite part_loop.
Qed.

(** The events of a run of [note] elements are chained from the cursor. *)
Lemma note_events_chained (hand : string) (l : list Element) :
  forall t, chained t (fst (note_events hand l t)).
Proof.
  induction l as [|e l IH]; intros t; simpl; [exact I|].
  destruct (emitted e t hand) as [nd|] eqn:E; [|apply IH].
  specialize (IH (end_time nd)).
  destruct (note_events hand l (end_time nd)) as [evs t'].
  simpl in *. split; [|exact IH].
  now apply emitted_fields in E as [E _].
Qed.

(** Every event of a run of [note] elements is emitted for one of them. *)
Lemma note_events_In (hand : string) (l : list Element) :
  forall t ev, In ev (fst (note_events hand l t)) ->
    exists e t', In e l /\ emitted e t' hand = Some ev.
Proof.
  induction l as [|e l IH]; intros t ev Hin; simpl in Hin; [contradiction|].
  destruct (emitted e t hand) as [nd|] eqn:E.
  - specialize (IH (end_time nd) ev).
    destruct (note_events hand l (end_time nd)) as [evs t'].
    destruct Hin as [<-|Hin].
    + exists e, t. split; [now left | exact E].
    + destruct (IH Hin) as (e' & t'' & He' & Hem).
      exists e', t''. split; [now right | exact Hem].
  - destruct (IH t ev Hin) as (e' & t'' & He' & Hem).
    exists e', t''. split; [now right | exact Hem].
Qed.

Lemma part_events_fields (h : string) (part : Element) (ev : NoteEvent) :
  In ev (part_events h part) ->
  hand ev = h /\ 21 <= midi ev <= 108 /\
  (finger ev = None \/ exists n, finger ev = Some n /\ 1 <= n <= 5).
Proof.
  intros Hin. apply note_events_In in Hin as (e & t & _ & Hem).
  now apply emitted_fields in Hem as (_ & Hh & Hm & Hf).
Qed.

(** An event of [events_from i parts] is an event of one of the parts. *)
Lemma events_from_In (parts : list Element) :
  forall i ev, In ev (events_from i parts) <->
    exists j part, nth_error parts j = Some part /\
                   In ev (part_events (hand_of (i + j)) part).
Proof.
  unfold events_from.
  induction parts as [|p ps IH]; intros i ev; simpl.
  - split; [contradiction|]. intros (j & part & H & _). now destruct j.
  - rewrite in_app_iff, IH. split.
    + intros [H|(j & part & Hj & Hin)].
      * exists 0%nat, p. rewrite Nat.add_0_r. now split.
      * exists (S j), part. rewrite Nat.add_succ_r. now split.
    + intros (j & part & Hj & Hin). destruct j as [|j]; simpl in Hj.
      * injection Hj as <-. rewrite Nat.add_0_r in Hin. now left.
      * right. exists j, part. rewrite Nat.add_succ_r in Hin. now split.
Qed.

Lemma lookup_base_notes (s : string) (b : Z) :
  In (s, b) [("C", 60); ("D", 62); ("E", 64); ("F", 65); ("G", 67);
             ("A", 69); ("B", 71)] ->
  lookup s base_notes = Some b.
Proof.
  intros H. repeat (destruct H as [[= <- <-]|H]; [reflexivity|]).
  contradiction.
Qed.

(* ===================================================================== *)
(** * Pitch resolution                                                    *)
(* ===================================================================== *)

(** C1. A pitched note whose step is one of C, D, E, F, G, A, B, whose
    octave is an integer and whose alteration is an integer (0 when there
    is no [alter] element) resolves to the key number
    [base(step) + (octave - 4) * 12 + alteration], with the bases 60, 62,
    64, 65, 67, 69 and 71.  When the number is outside 21..108 the element
    is dropped: [_parse_note_element] returns [None] and does not raise.
    When it is inside, the emitted event carries that number. *)
Theorem C1_pitch_to_key_number :
  forall (note_elem pitch_elem step_elem octave_elem : Element)
         (s : string) (b octave alter : Z) (t : float) (hand : string),
    find "rest" note_elem = None ->
    find "pitch" note_elem = Some pitch_elem ->
    find "step" pitch_elem = Some step_elem ->
    text step_elem = Some s ->
    In (s, b) [("C", 60); ("D", 62); ("E", 64); ("F", 65); ("G", 67);
               ("A", 69); ("B", 71)] ->
    find "octave" pitch_elem = Some octave_elem ->
    int_of_text (text octave_elem) = Ok octave ->
    (find "alter" pitch_elem = None /\ alter = 0 \/
     exists alter_elem, find "alter" pitch_elem = Some alter_elem /\
                        int_of_text (text alter_elem) = Ok alter) ->
    let k := b + (octave - 4) * 12 + alter in
    _note_to_midi (Some s) octave alter
      = (if (21 <=? k) && (k <=? 108) then Some k else None) /\
    (k < 21 \/ 108 < k -> _parse_note_element note_elem t hand = Ok None) /\
    (21 <= k <= 108 ->
     forall d f, note_duration note_elem = Ok d ->
                 note_fingering note_elem = Ok f ->
       _parse_note_element note_elem t hand
       = Ok (Some {| midi := k; start := t; duration := d; hand := hand;
                     finger := clamp_finger f |})) /\
    (exists r, _parse_note_element note_elem t hand = Ok r /\
               forall ev, r = Some ev -> midi ev = k).
Proof.
  intros note_elem pitch_elem step_elem octave_elem s b octave alter t hand
         Hrest Hpitch Hstep Hs Hb Hoct Hoi Halt k.
  apply lookup_base_notes in Hb.
  assert (Hmidi : _note_to_midi (Some s) octave alter
                  = (if (21 <=? k) && (k <=? 108) then Some k else None)).
  { unfold _note_to_midi. now rewrite Hb. }
  assert (Ha : pitch_alter pitch_elem = Ok alter).
  { unfold pitch_alter. destruct Halt as [[-> ->]|(ae & -> & ->)]; reflexivity. }
  assert (Hbody : parse_note_body note_elem t hand
                  = match _note_to_midi (Some s) octave alter with
                    | None => Ok None
                    | Some midi_num =>
                        duration <- note_duration note_elem ;;
                        finger <- note_fingering note_elem ;;
                        Ok (Some {| midi := midi_num; start := t;
                                    duration := duration; hand := hand;
                                    finger := clamp_finger finger |})
                    end).
  { unfold parse_note_body. rewrite Hrest, Hpitch, Hstep, Hoct. simpl.
    rewrite Hs, Hoi. simpl. now rewrite Ha. }
  split; [exact Hmidi|]. split; [|split].
  - intros Hout. unfold _parse_note_element. rewrite Hbody, Hmidi.
    replace ((21 <=? k) && (k <=? 108)) with false; [reflexivity|].
    symmetry. apply andb_false_iff. rewrite Z.leb_gt, Z.leb_gt. lia.
  - intros Hin d f Hd Hf. unfold _parse_note_element.
    rewrite Hbody, Hmidi, Hd, Hf.
    replace ((21 <=? k) && (k <=? 108)) with true; [reflexivity|].
    symmetry. apply andb_true_iff. rewrite !Z.leb_le. lia.
  - exists (emitted note_elem t hand).
    split; [apply parse_note_element_returns|].
    intros ev Hev. apply emitted_inv in Hev
      as (_ & p & step & ot & o & a & d & f & Hp & Hst & Hot & Ho & Hal & Hk & _).
    rewrite Hpitch in Hp. injection Hp as <-.
    rewrite Hstep in Hst. simpl in Hst. rewrite Hs in Hst. injection Hst as <-.
    rewrite Hoct in Hot. simpl in Hot. injection Hot as <-.
    rewrite Hoi in Ho. injection Ho as <-.
    rewrite Ha in Hal. injection Hal as <-.
    rewrite Hmidi in Hk.
    destruct ((21 <=? k) && (k <=? 108)); congruence.
Qed.

(** C1 at middle C (in range, emitted with key number 60). *)
Lemma C1_pitch_to_key_number_witness :
  _parse_note_element (pitched "C" "4" "4") f0_0 "R"
  = Ok (Some {| midi := 60; start := f0_0; duration := f1_0; hand := "R";
                finger := None |}).
Proof.
  refine (proj1 (proj2 (proj2
    (C1_pitch_to_key_number (pitched "C" "4" "4")
       (Elem "pitch" [] None [leaf "step" "C"; leaf "octave" "4"])
       (leaf "step" "C") (leaf "octave" "4") "C" 60 4 0 f0_0 "R"
       eq_refl eq_refl eq_refl eq_refl (or_introl eq_refl) eq_refl eq_refl
       (or_introl (conj eq_refl eq_refl))))) _ f1_0 None eq_refl eq_refl).
  simpl. lia.
Defined.

(* ===================================================================== *)
(** * Rests, durations and the cursor                                     *)
(* ===================================================================== *)

(** Removing the elements with a [rest] child changes neither the events
    nor the cursor. *)
Lemma note_loop_skips_rest (hand : string) (l1 l2 : list Element)
    (e : Element) (st : list NoteEvent * float) :
  is_some (find "rest" e) = true ->
  for_each (note_step hand) (l1 ++ e :: l2) st
  = for_each (note_step hand) (l1 ++ l2) st.
Proof.
  intros Hrest. destruct st as [notes t].
  rewrite !note_loop, !note_events_app. simpl.
  now rewrite (emitted_rest _ _ _ Hrest).
Qed.

(** C4. An element with a [rest] child emits no event and leaves the
    cursor where it was, whether or not it has a [duration]: the step of
    the loop returns the state it was given, and the loop over a run of
    elements gives the same events and cursor with the rest as without it.
    A step that does move the cursor is the step of an emitted pitched
    note, and it moves the cursor to the end (start + duration) of that
    note. *)
Theorem C4_rest_emits_nothing_and_keeps_cursor :
  (forall (hand : string) (notes : list NoteEvent) (measure_time : float)
          (note_elem : Element),
      is_some (find "rest" note_elem) = true ->
      _parse_note_element note_elem measure_time hand = Ok None /\
      note_step hand (notes, measure_time) note_elem = Ok (notes, measure_time) /\
      forall before after,
        for_each (note_step hand) (before ++ note_elem :: after)
                 (notes, measure_time)
        = for_each (note_step hand) (before ++ after) (notes, measure_time)) /\
  (forall (hand : string) (notes : list NoteEvent) (measure_time : float)
          (note_elem : Element),
      note_step hand (notes, measure_time) note_elem = Ok (notes, measure_time) \/
      exists nd,
        _parse_note_element note_elem measure_time hand = Ok (Some nd) /\
        is_some (find "rest" note_elem) = false /\
        is_some (find "pitch" note_elem) = true /\
        start nd = measure_time /\
        note_step hand (notes, measure_time) note_elem
        = Ok (notes ++ [nd], fadd (start nd) (duration nd))).
Proof.
  split.
  - intros hand notes t e Hrest.
    pose proof (emitted_rest e t hand Hrest) as Hem.
    split; [|split].
    + now rewrite parse_note_element_returns, Hem.
    + unfold note_step. now rewrite parse_note_element_returns, Hem.
    + intros before after. now apply note_loop_skips_rest.
  - intros hand notes t e. unfold note_step.
    rewrite parse_note_element_returns.
    destruct (emitted e t hand) as [nd|] eqn:Hem; simpl; [right|now left].
    exists nd. pose proof (emitted_fields _ _ _ _ Hem) as (Hstart & _).
    apply emitted_inv in Hem as (Hrest & p & ? & ? & ? & ? & ? & ? & Hp & _).
    rewrite Hrest, Hp. repeat split; trivial.
Qed.

(** C4 at a rest that carries a duration of four units. *)
Lemma C4_rest_emits_nothing_and_keeps_cursor_witness :
  _parse_note_element (rest_note "4") f1_0 "R" = Ok None /\
  note_step "R" ([], f1_0) (rest_note "4") = Ok ([], f1_0).
Proof.
  pose proof (proj1 C4_rest_emits_nothing_and_keeps_cursor
                "R" [] f1_0 (rest_note "4") eq_refl) as (H1 & H2 & _).
  split; [exact H1 | exact H2].
Defined.

(** C5. The duration of an emitted note is the float of its [duration]
    text divided by 4.0, and 0.5 when it has no [duration] element; the
    note starts at the cursor and the step moves the cursor to start +
    duration.  The events of a part are chained in this way from 0.0.  One
    part with two notes of one unit each gives an event at 0.0 and an
    event at 0.25, both of duration 0.25. *)
Theorem C5_durations_and_cursor :
  (forall (e : Element) (t : float) (h : string) (ev : NoteEvent),
      _parse_note_element e t h = Ok (Some ev) ->
      start ev = t /\
      match find "duration" e with
      | Some duration_elem =>
          exists units, float_of_text (text duration_elem) = Ok units /\
                        duration ev = fdiv units f4_0
      | None => duration ev = f0_5
      end /\
      forall notes,
        note_step h (notes, t) e = Ok (notes ++ [ev], fadd t (duration ev))) /\
  (forall (hand : string) (part : Element),
      exists evs t',
        for_each (measure_step hand) (findall "measure" part) ([], f0_0)
        = Ok (evs, t') /\
        chained f0_0 evs) /\
  _extract_notes two_quarters
  = Ok [ {| midi := 60; start := f0_0; duration := f0_25; hand := "R";
            finger := None |};
         {| midi := 62; start := f0_25; duration := f0_25; hand := "R";
            finger := None |} ].
Proof.
  split; [|split].
  - intros e t h ev Hp.
    assert (Hem : emitted e t h = Some ev).
    { rewrite parse_note_element_returns in Hp. now injection Hp. }
    pose proof (emitted_fields _ _ _ _ Hem) as (Hstart & _).
    split; [exact Hstart|]. split.
    + apply emitted_inv in Hem
        as (_ & p & ? & ? & ? & ? & d & f & _ & _ & _ & _ & _ & _ & Hd & _ & Hev).
      rewrite Hev. simpl. unfold note_duration in Hd.
      destruct (find "duration" e) as [de|].
      * destruct (float_of_text (text de)) as [u|]; [|discriminate].
        simpl in Hd. injection Hd as <-. now exists u.
      * now injection Hd as <-.
    + intros notes. unfold note_step. rewrite Hp. simpl. now rewrite Hstart.
  - intros hand part. rewrite measure_loop. simpl.
    eexists. eexists. split; [reflexivity|]. apply note_events_chained.
  - reflexivity.
Qed.

(** C5 at the first note of the two-note part. *)
Lemma C5_durations_and_cursor_witness :
  let ev := {| midi := 60; start := f0_0; duration := f0_25; hand := "R";
               finger := None |} in
  float_of_text (Some "1") = Ok f1_0 /\ fdiv f1_0 f4_0 = f0_25 /\
  note_step "R" ([], f0_0) (pitched "C" "4" "1") = Ok ([ev], fadd f0_0 f0_25).
Proof.
  intros ev.
  split; [reflexivity|]. split; [reflexivity|].
  exact (proj2 (proj2 (proj1 C5_durations_and_cursor
           (pitched "C" "4" "1") f0_0 "R" ev eq_refl)) []).
Defined.

(* ===================================================================== *)
(** * The emitted events                                                  *)
(* ===================================================================== *)

(** C10. [_extract_notes] returns for every document, and every event of
    the list it returns has a key number in 21..108 and a finger that is
    absent or in 1..5.  The list consists of the events of the parts
    ([part_events], what the loop over the measures of the part emits): an
    event of the first part (index 0) has hand "R", an event of any other
    part has hand "L". *)
Theorem C10_emitted_events_in_range :
  forall root : Element,
    exists l,
      _extract_notes root = Ok l /\
      (forall ev, In ev l ->
         21 <= midi ev <= 108 /\
         (finger ev = None \/ exists n, finger ev = Some n /\ 1 <= n <= 5) /\
         (hand ev = "R" \/ hand ev = "L")) /\
      (forall ev, In ev l <->
         exists i part,
           nth_error (findall_desc "part" root) i = Some part /\
           In ev (part_events (hand_of i) part)) /\
      (forall i part ev,
         nth_error (findall_desc "part" root) i = Some part ->
         In ev (part_events (hand_of i) part) ->
         (hand ev = "R" <-> i = 0%nat) /\ (hand ev = "L" <-> i <> 0%nat)) /\
      (forall i part, exists t',
         for_each (measure_step (hand_of i)) (findall "measure" part) ([], f0_0)
         = Ok (part_events (hand_of i) part, t')).
Proof.
  intros root. exists (sort_by start (extracted root)).
  split; [apply extract_notes_returns|].

  assert (Hmem : forall ev, In ev (sort_by start (extracted root)) <->
            exists i part,
              nth_error (findall_desc "part" root) i = Some part /\
              In ev (part_events (hand_of i) part)).
  { intros ev. unfold extracted. rewrite <- (events_from_In _ 0%nat ev).
    split; apply Permutation_in;
      [apply sort_by_perm | symmetry; apply sort_by_perm]. }
  split; [|split; [exact Hmem|
           split; [|intros i part; apply part_events_loop]]].
  - intros ev Hin. apply Hmem in Hin as (i & part & _ & Hin).
    apply part_events_fields in Hin as (Hh & Hm & Hf).
    repeat split; trivial; try lia.
    rewrite Hh. destruct i; [now left | now right].
  - intros i part ev _ Hin.
    apply part_events_fields in Hin as (Hh & _). rewrite Hh.
    destruct i; simpl; split; split; congruence.
Qed.

(** Fingerings 0, 6 and non-numeric text give no finger; 3 is kept. *)
Example fingering_normalised :
  map (fun f => match emitted (fingered "C" "4" "4" f) f0_0 "R" with
                | Some ev => finger ev
                | None => Some (-1)
                end) ["0"; "6"; "x"; "3"]
  = [None; None; None; Some 3].
Proof. reflexivity. Qed.

(* ===================================================================== *)
(** * The order of the returned notes                                     *)
(* ===================================================================== *)





(* ===================================================================== *)
(** * [convert] and the derived fields                                    *)
(* ===================================================================== *)

Arguments _extract_tempo : simpl never.
Arguments _extract_key_signature : simpl never.
Arguments _extract_time_signature : simpl never.
Arguments _extract_metadata : simpl never.
Arguments _calculate_duration : simpl never.
Arguments isoformat : simpl never.
Arguments sort_by : simpl never.
Arguments extracted : simpl never.

Lemma convert_inv (env : Env) (path : string) (t c : option string)
    (d : AnimationData) :
  convert env path t c = Ok d ->
  exists root tp ks,
    et_parse env path = Ok root /\
    _extract_tempo root = Ok tp /\
    _extract_key_signature root = Ok ks /\
    d = {| metadata := _extract_metadata root t c;
           notes := sort_by start (extracted root);
           total_duration := _calculate_duration (sort_by start (extracted root));
           tempo := tp; keySignature := ks;
           timeSignature := _extract_time_signature root;
           generated_at := isoformat (utcnow env) |}.
Proof.
  unfold convert, try_except.
  destruct (et_parse env path) as [root|] eqn:Hp; simpl; [|discriminate].
  rewrite extract_notes_returns. simpl.
  destruct (_extract_tempo root) as [tp|] eqn:Ht; simpl; [|discriminate].
  destruct (_extract_key_signature root) as [ks|] eqn:Hk; simpl;
    [|discriminate].
  intros [= <-]. now exists root, tp, ks.
Qed.






Lemma tempo_default (root : Element) :
  find_desc "per-minute" root = None -> _extract_tempo root = Ok 120.
Proof. unfold _extract_tempo. now intros ->. Qed.

Lemma key_default (root : Element) :
  find_desc "key" root = None -> _extract_key_signature root = Ok "C".
Proof. unfold _extract_key_signature. now intros ->. Qed.





(* ===================================================================== *)
(** * Metadata                                                            *)
(* ===================================================================== *)




(* ===================================================================== *)
(** * Tempo, key signature and what [convert] raises                      *)
(* ===================================================================== *)

(** [float()] of a string raises nothing but [ValueError]. *)
Lemma float_of_string_raises (s : string) (e : exn) :
  float_of_string s = Raise e -> e = ValueError.
Proof.
  unfold float_of_string.
  destruct (split_sign _) as [neg body].
  destruct (_ || _); [discriminate|].
  destruct (_ =? _)%string; [discriminate|].
  destruct (underscores_ok None body); [|congruence].
  destruct (parse_decimal _) as [[m k]|]; [discriminate | congruence].
Qed.

(** [int()] of a string raises nothing but [ValueError]. *)
Lemma int_of_string_raises (s : string) (e : exn) :
  int_of_string s = Raise e -> e = ValueError.
Proof.
  unfold int_of_string.
  destruct (split_sign _) as [neg body].
  destruct (underscores_ok None body); [|congruence].
  destruct (span_digits _) as [[|d ds] [|r rs]]; try congruence.
  destruct (_ <? _); congruence.
Qed.

(** [_extract_tempo] raises exactly when the text of the first
    [per-minute] element is the literal of an infinity. *)
Lemma extract_tempo_raises (root : Element) (e : exn) :
  _extract_tempo root = Raise e <->
  e = OverflowError /\
  exists el s sg,
    find_desc "per-minute" root = Some el /\ text el = Some s /\
    s <> "" /\ float_of_string s = Ok (S754_infinity sg).
Proof.
  unfold _extract_tempo, try_except. split.
  - destruct (find_desc "per-minute" root) as [el|]; [|discriminate].
    destruct (text el) as [[|c s]|] eqn:Ht; simpl; try discriminate.
    unfold float_of_text.
    destruct (float_of_string (String c s)) as [x|e'] eqn:Hf; simpl.
    + destruct x as [sg|sg| |sg m ex]; simpl; try discriminate.
      intros [= <-]. split; [reflexivity|].
      exists el, (String c s), sg. repeat split; trivial. discriminate.
    + apply float_of_string_raises in Hf as ->. discriminate.
  - intros (-> & el & s & sg & -> & -> & Hne & Hf).
    destruct s as [|c s]; [contradiction|]. simpl.
    unfold float_of_text. now rewrite Hf.
Qed.

(** C8 fails on a tempo marking that reads "inf": [float] accepts the
    text, [int] of the infinity raises [OverflowError], the handler is for
    [ValueError], and the exception leaves [_extract_tempo] and
    [convert]. *)
Theorem C8_tempo_inf_raises :
  find_desc "per-minute" tempo_inf = Some (leaf "per-minute" "inf") /\
  float_of_text (Some "inf") = Ok (S754_infinity false) /\
  _extract_tempo tempo_inf = Raise OverflowError /\
  convert (env_with tempo_inf clock_a) "score.musicxml" None None
  = Raise OverflowError.
Proof. repeat split; reflexivity. Qed.

(** Elsewhere the tempo is as C8 says: the first marking, as a float,
    truncated; 120 without a marking or with text that is not a number. *)
Example tempo_examples :
  _extract_tempo tempo_fraction = Ok 90 /\
  _extract_tempo empty_score = Ok 120 /\
  _extract_tempo (score [leaf "per-minute" "fast"; leaf "per-minute" "60"])
  = Ok 120 /\
  _extract_tempo (score [leaf "per-minute" "nan"]) = Ok 120.
Proof. repeat split; reflexivity. Qed.

(** [_extract_key_signature] raises exactly when [int()] of the text of
    the [fifths] element raises. *)
Lemma extract_key_signature_raises (root : Element) (e : exn) :
  _extract_key_signature root = Raise e <->
  exists key_elem fifths_elem,
    find_desc "key" root = Some key_elem /\
    find "fifths" key_elem = Some fifths_elem /\
    int_of_text (text fifths_elem) = Raise e.
Proof.
  unfold _extract_key_signature. split.
  - destruct (find_desc "key" root) as [k|]; [|discriminate].
    destruct (find "fifths" k) as [f|] eqn:Hf; [|discriminate].
    destruct (int_of_text (text f)) as [n|e'] eqn:Hi; simpl.
    + destruct (_ && _); discriminate.
    + intros [= <-]. now exists k, f.
  - intros (k & f & -> & -> & ->). reflexivity.
Qed.

(** What [convert] raises comes from [ET.parse], from [_extract_tempo]
    or from [_extract_key_signature]. *)
Lemma convert_raises (env : Env) (path : string) (t c : option string)
    (e : exn) :
  convert env path t c = Raise e <->
  et_parse env path = Raise e \/
  exists root,
    et_parse env path = Ok root /\
    (_extract_tempo root = Raise e \/
     (exists tp, _extract_tempo root = Ok tp) /\
     _extract_key_signature root = Raise e).
Proof.
  unfold convert, try_except.
  destruct (et_parse env path) as [root|e0] eqn:Hp; simpl.
  - rewrite extract_notes_returns. simpl.
    destruct (_extract_tempo root) as [tp|e1] eqn:Ht; simpl.
    + destruct (_extract_key_signature root) as [ks|e2] eqn:Hk; simpl.
      * split; [discriminate|].
        intros [H|(r & [= <-] & [H|(_ & H)])]; congruence.
      * split.
        -- intros [= <-]. right. exists root. split; [reflexivity|].
           right. split; [now exists tp | exact Hk].
        -- intros [H|(r & [= <-] & [H|(_ & H)])]; congruence.
    + split.
      * intros [= <-]. right. exists root. split; [reflexivity|]. now left.
      * intros [H|(r & [= <-] & [H|((tp & H') & _)])]; congruence.
  - split.
    + intros [= <-]. now left.
    + intros [H|(r & H & _)]; congruence.
Qed.

(** C2 fails on a key signature whose [fifths] is not a number: the
    document is parsed, [int()] raises [ValueError] in
    [_extract_key_signature], nothing catches it, and [convert] raises it
    to its caller. *)
Theorem C2_bad_key_signature_raises :
  et_parse (env_with bad_key clock_a) "score.musicxml" = Ok bad_key /\
  _extract_key_signature bad_key = Raise ValueError /\
  convert (env_with bad_key clock_a) "score.musicxml" None None
  = Raise ValueError.
Proof. repeat split; reflexivity. Qed.

(* ===================================================================== *)
(** * What [convert] depends on                                           *)
(* ===================================================================== *)




(* ===================================================================== *)
(** * The table of display names                                          *)
(* ===================================================================== *)

Section DictFacts.
Context {K V : Type} (eqb : K -> K -> bool).
Hypothesis eqb_eq : forall a b, eqb a b = true <-> a = b.

Lemma dict_get_set_same (d : list (K * V)) (k : K) (v : V) :
  dict_get eqb k (dict_set eqb d k v) = Some v.
Proof.
  induction d as [|[k' v'] d IH]; simpl.
  - now rewrite (proj2 (eqb_eq k k) eq_refl).
  - destruct (eqb k' k) eqn:E; simpl; rewrite E; [reflexivity | exact IH].
Qed.

Lemma dict_get_set_other (d : list (K * V)) (k k0 : K) (v : V) :
  k0 <> k -> dict_get eqb k (dict_set eqb d k0 v) = dict_get eqb k d.
Proof.
  intros Hne. induction d as [|[k' v'] d IH]; simpl.
  - destruct (eqb k0 k) eqn:E; [|reflexivity].
    apply eqb_eq in E. contradiction.
  - destruct (eqb k' k0) eqn:E0; simpl.
    + destruct (eqb k' k) eqn:E; [|reflexivity].
      apply eqb_eq in E0, E. congruence.
    + now rewrite IH.
Qed.

(** Filling a dictionary in a loop: afterwards a key of the loop has the
    value computed for it, and any other key has what it had. *)
Lemma dict_fill (f : K -> V) (l : list K) :
  forall d k,
    dict_get eqb k (fold_left (fun d i => dict_set eqb d i (f i)) l d)
    = if existsb (fun i => eqb i k) l then Some (f k) else dict_get eqb k d.
Proof.
  induction l as [|a l IH]; intros d k; simpl; [reflexivity|].
  rewrite IH. destruct (existsb (fun i => eqb i k) l).
  - now rewrite orb_true_r.
  - rewrite orb_false_r. destruct (eqb a k) eqn:E.
    + apply eqb_eq in E as ->. apply dict_get_set_same.
    + apply dict_get_set_other. intros ->.
      rewrite (proj2 (eqb_eq k k) eq_refl) in E. discriminate.
Qed.
End DictFacts.

Lemma in_range (a b k : Z) : In k (range a b) <-> a <= k < b.
Proof.
  unfold range. rewrite in_map_iff. split.
  - intros (i & <- & Hi). apply in_seq in Hi. lia.
  - intros H. exists (Z.to_nat (k - a)). split; [lia|].
    apply in_seq. lia.
Qed.

Lemma existsb_range (a b k : Z) :
  existsb (fun i => i =? k) (range a b) = (a <=? k) && (k <? b).
Proof.
  destruct (existsb (fun i => i =? k) (range a b)) eqn:E.
  - apply existsb_exists in E as (i & Hi & Heq).
    apply Z.eqb_eq in Heq as ->. apply in_range in Hi.
    symmetry. apply andb_true_iff. rewrite Z.leb_le, Z.ltb_lt. lia.
  - symmetry. apply andb_false_iff.
    rewrite Z.leb_gt, Z.ltb_ge.
    destruct (Z_lt_dec k a); [now left|].
    destruct (Z_le_dec b k); [now right|].
    exfalso. assert (Hin : In k (range a b)) by (apply in_range; lia).
    assert (Ht : existsb (fun i => i =? k) (range a b) = true).
    { apply existsb_exists. exists k. split; [exact Hin | apply Z.eqb_refl]. }
    congruence.
Qed.

(** What [midi_to_note.get(k)] is, for every integer [k]. *)
Lemma midi_mapping_get :
  forall k : Z,
    dict_get Z.eqb k _build_midi_mapping
    = if (21 <=? k) && (k <=? 108)
      then Some (nth (Z.to_nat ((k - 12) mod 12)) note_names ""
                 ++ str_of_int ((k - 12) / 12))%string
      else None.
Proof.
  intros k. unfold _build_midi_mapping.
  change (fold_left midi_mapping_step (range 21 109) [])
    with (fold_left
            (fun d i => dict_set Z.eqb d i
               (nth (Z.to_nat ((i - 12) mod 12)) note_names ""
                ++ str_of_int ((i - 12) / 12))%string)
            (range 21 109) []).
  rewrite (dict_fill Z.eqb Z.eqb_eq), existsb_range.
  replace (k <? 109) with (k <=? 108); [reflexivity|].
  destruct (Z.leb_spec k 108), (Z.ltb_spec k 109); lia || reflexivity.
Qed.

Lemma midi_mapping_get_range (k : Z) (name : string) :
  dict_get Z.eqb k _build_midi_mapping = Some name -> In k (range 21 109).
Proof.
  rewrite midi_mapping_get.
  destruct ((21 <=? k) && (k <=? 108)) eqn:E; [|discriminate].
  intros _. apply andb_prop in E as [E1 E2].
  apply in_range. apply Z.leb_le in E1, E2. lia.
Qed.

(** X1. The table built by [_build_midi_mapping] has the 88 keys 21..108,
    in ascending order and each once; looking up a number outside 21..108
    gives nothing, and inside it gives the name of the pitch class
    [(k - 12) mod 12] followed by the octave [(k - 12) / 12]. *)
Theorem X1_midi_mapping_table :
  map fst _build_midi_mapping = range 21 109 /\
  List.length _build_midi_mapping = 88%nat /\
  forall k : Z,
    (k < 21 \/ 108 < k -> dict_get Z.eqb k _build_midi_mapping = None) /\
    (21 <= k <= 108 ->
     dict_get Z.eqb k _build_midi_mapping
     = Some (nth (Z.to_nat ((k - 12) mod 12)) note_names ""
             ++ str_of_int ((k - 12) / 12))%string).
Proof.
  split; [vm_compute; reflexivity|]. split; [vm_compute; reflexivity|].
  intros k. rewrite midi_mapping_get. split; intros H.
  - replace ((21 <=? k) && (k <=? 108)) with false; [reflexivity|].
    symmetry. apply andb_false_iff. rewrite !Z.leb_gt. lia.
  - replace ((21 <=? k) && (k <=? 108)) with true; [reflexivity|].
    symmetry. apply andb_true_iff. rewrite !Z.leb_le. lia.
Qed.

(** X1 at the ends of the keyboard and one key beyond. *)
Lemma X1_midi_mapping_table_witness :
  dict_get Z.eqb 21 _build_midi_mapping = Some "A0" /\
  dict_get Z.eqb 108 _build_midi_mapping = Some "C8" /\
  dict_get Z.eqb 109 _build_midi_mapping = None.
Proof.
  destruct X1_midi_mapping_table as (_ & _ & H).
  split; [|split].
  - exact (proj2 (H 21) ltac:(lia)).
  - exact (proj2 (H 108) ltac:(lia)).
  - exact (proj1 (H 109) ltac:(lia)).
Defined.

(** The octaves for which a step with alteration [alter] in -1..1 is on
    the keyboard. *)
Lemma note_to_midi_octave (s : string) (b octave alter k : Z) :
  In (s, b) base_notes -> -1 <= alter <= 1 ->
  _note_to_midi (Some s) octave alter = Some k ->
  k = b + (octave - 4) * 12 + alter /\ 0 <= octave <= 8.
Proof.
  intros Hb Ha. unfold _note_to_midi.
  assert (Hl : lookup s base_notes = Some b /\ 60 <= b <= 71).
  { simpl in Hb.
    repeat (destruct Hb as [[= <- <-]|Hb]; [split; [reflexivity | lia]|]).
    contradiction. }
  destruct Hl as (-> & Hrange).
  destruct ((21 <=? _) && (_ <=? 108)) eqn:E; [|discriminate].
  intros [= <-]. apply andb_prop in E as [E1 E2].
  apply Z.leb_le in E1, E2. split; [reflexivity | lia].
Qed.

(** The names of the keys of the steps [steps] raised by [alter], for
    the octaves 0..8, by evaluation of the table. *)
Lemma names_by_evaluation (alter : Z) (infix : string) (steps : list string) :
  forallb
    (fun sb =>
       negb (existsb (String.eqb (fst sb)) steps) ||
       forallb
         (fun o =>
            match _note_to_midi (Some (fst sb)) o alter with
            | Some k =>
                match dict_get Z.eqb k _build_midi_mapping with
                | Some name =>
                    (name =? fst sb ++ infix ++ str_of_int o)%string
                | None => false
                end
            | None => true
            end)
         (range 0 9))
    base_notes = true ->
  forall s b octave k,
    In (s, b) base_notes -> In s steps -> -1 <= alter <= 1 ->
    _note_to_midi (Some s) octave alter = Some k ->
    dict_get Z.eqb k _build_midi_mapping
    = Some (s ++ infix ++ str_of_int octave)%string.
Proof.
  intros Hall s b octave k Hb Hs Ha Hk.
  rewrite forallb_forall in Hall. specialize (Hall (s, b) Hb).
  cbv beta iota delta [fst] in Hall.
  assert (Hex : existsb (String.eqb s) steps = true).
  { apply existsb_exists. exists s. split; [exact Hs | apply String.eqb_refl]. }
  rewrite Hex in Hall. apply orb_prop in Hall as [Hall|Hall];
    [discriminate Hall|].
  rewrite forallb_forall in Hall.
  destruct (note_to_midi_octave s b octave alter k Hb Ha Hk) as (_ & Ho).
  assert (Hin : In octave (range 0 9)) by (apply in_range; lia).
  specialize (Hall octave Hin). rewrite Hk in Hall.
  destruct (dict_get Z.eqb k _build_midi_mapping) as [name|]; [|discriminate].
  apply String.eqb_eq in Hall. now subst.
Qed.

(** X2. The name in the table agrees with the pitch that was resolved: a
    natural note on the keyboard has the name step followed by octave,
    and a C, D, F, G or A raised by one semitone has the name step, "#",
    octave. *)
Theorem X2_names_of_resolved_pitches :
  forall (s : string) (b octave k : Z),
    In (s, b) base_notes ->
    (_note_to_midi (Some s) octave 0 = Some k ->
     dict_get Z.eqb k _build_midi_mapping
     = Some (s ++ str_of_int octave)%string) /\
    (In s ["C"; "D"; "F"; "G"; "A"] ->
     _note_to_midi (Some s) octave 1 = Some k ->
     dict_get Z.eqb k _build_midi_mapping
     = Some (s ++ "#" ++ str_of_int octave)%string).
Proof.
  intros s b octave k Hb. split.
  - intros Hk.
    refine (names_by_evaluation 0 "" (map fst base_notes) _
              s b octave k Hb _ _ Hk).
    + vm_compute. reflexivity.
    + now apply (in_map fst) in Hb.
    + lia.
  - intros Hs Hk.
    refine (names_by_evaluation 1 "#" ["C"; "D"; "F"; "G"; "A"] _
              s b octave k Hb Hs _ Hk).
    + vm_compute. reflexivity.
    + lia.
Qed.

(** X2 at middle C and at the C sharp above it. *)
Lemma X2_names_of_resolved_pitches_witness :
  dict_get Z.eqb 60 _build_midi_mapping = Some "C4" /\
  dict_get Z.eqb 61 _build_midi_mapping = Some "C#4".
Proof.
  destruct (X2_names_of_resolved_pitches "C" 60 4 60 (or_introl eq_refl))
    as (H0 & _).
  destruct (X2_names_of_resolved_pitches "C" 60 4 61 (or_introl eq_refl))
    as (_ & H1).
  split; [exact (H0 eq_refl) | exact (H1 (or_introl eq_refl) eq_refl)].
Defined.

(** Each name of the table leads back to its key, by evaluation. *)
Lemma names_lead_back :
  forallb
    (fun k =>
       match dict_get Z.eqb k _build_midi_mapping with
       | Some name =>
           match key_named name with
           | Some k' => k' =? k
           | None => false
           end
       | None => false
       end)
    (range 21 109) = true.
Proof. vm_compute. reflexivity. Qed.

(** X3. The display names identify the keys: the key found under a name
    of the table is the key that has this name, so two keys never share a
    name. *)
Theorem X3_display_names_identify_keys :
  (forall (k : Z) (name : string),
      dict_get Z.eqb k _build_midi_mapping = Some name ->
      key_named name = Some k) /\
  (forall (k1 k2 : Z) (name : string),
      dict_get Z.eqb k1 _build_midi_mapping = Some name ->
      dict_get Z.eqb k2 _build_midi_mapping = Some name ->
      k1 = k2).
Proof.
  assert (H : forall k name,
             dict_get Z.eqb k _build_midi_mapping = Some name ->
             key_named name = Some k).
  { intros k name Hk.
    pose proof (midi_mapping_get_range _ _ Hk) as Hin.
    pose proof names_lead_back as Hall. rewrite forallb_forall in Hall.
    specialize (Hall k Hin). rewrite Hk in Hall.
    destruct (key_named name) as [k'|]; [|discriminate].
    apply Z.eqb_eq in Hall. now subst. }
  split; [exact H|].
  intros k1 k2 name H1 H2. apply H in H1, H2. congruence.
Qed.

(** X3 at the lowest key. *)
Lemma X3_display_names_identify_keys_witness : key_named "A0" = Some 21.
Proof.
  exact (proj1 X3_display_names_identify_keys 21 "A0" eq_refl).
Defined.

(** X4. Every note that [_extract_notes] returns has a key number with a
    display name in the table of the converter: the range test of
    [_note_to_midi] and the range of [_build_midi_mapping] agree. *)
Theorem X4_emitted_keys_have_names :
  forall root : Element,
    exists l,
      _extract_notes root = Ok l /\
      forall ev, In ev l ->
        exists name, dict_get Z.eqb (midi ev) _build_midi_mapping = Some name.
Proof.
  intros root. exists (sort_by start (extracted root)).
  split; [apply extract_notes_returns|].
  intros ev Hin.
  apply (Permutation_in _ (sort_by_perm start (extracted root))) in Hin.
  unfold extracted in Hin. apply events_from_In in Hin as (j & part & _ & Hin).
  apply part_events_fields in Hin as (_ & Hm & _).
  rewrite midi_mapping_get.
  replace ((21 <=? midi ev) && (midi ev <=? 108)) with true;
    [eexists; reflexivity|].
  symmetry. apply andb_true_iff. rewrite !Z.leb_le. lia.
Qed.

(* ===================================================================== *)
(** * Key signature, time signature and tempo                             *)
(* ===================================================================== *)

(** X5. When [_extract_key_signature] returns, it returns one of the
    eight names of its table.  With a [fifths] text that is the integer
    [n], the result is entry [n] of the table for 0 <= n <= 7 and "C" for
    every other [n], the negative ones (flat keys) included; without a
    [key] element, or without [fifths] in the first one, it is "C". *)
Theorem X5_key_signature_table :
  forall root : Element,
    (forall ks, _extract_key_signature root = Ok ks -> In ks keys) /\
    (forall key_elem fifths_elem n,
        find_desc "key" root = Some key_elem ->
        find "fifths" key_elem = Some fifths_elem ->
        int_of_text (text fifths_elem) = Ok n ->
        (0 <= n <= 7 ->
         _extract_key_signature root = Ok (nth (Z.to_nat n) keys "C")) /\
        (n < 0 \/ 7 < n -> _extract_key_signature root = Ok "C")) /\
    (find_desc "key" root = None \/
     (exists key_elem, find_desc "key" root = Some key_elem /\
                       find "fifths" key_elem = None) ->
     _extract_key_signature root = Ok "C").
Proof.
  intros root. unfold _extract_key_signature. split; [|split].
  - intros ks.
    destruct (find_desc "key" root) as [k|];
      [|intros [= <-]; now left].
    destruct (find "fifths" k) as [f|]; [|intros [= <-]; now left].
    destruct (int_of_text (text f)) as [n|]; cbn [bind]; [|discriminate].
    destruct ((0 <=? n) && _) eqn:E; intros [= <-]; [|now left].
    apply andb_prop in E as [E1 E2].
    apply Z.leb_le in E1. apply Z.ltb_lt in E2.
    assert (Hn : (Z.to_nat n < List.length keys)%nat) by lia.
    exact (nth_In keys "C" Hn).
  - intros k f n -> -> ->. simpl. split; intros H.
    + replace ((0 <=? n) && (n <? 8)) with true; [reflexivity|].
      symmetry. apply andb_true_iff. rewrite Z.leb_le, Z.ltb_lt. lia.
    + replace ((0 <=? n) && (n <? 8)) with false; [reflexivity|].
      symmetry. apply andb_false_iff. rewrite Z.leb_gt, Z.ltb_ge. lia.
  - intros [->|(k & -> & ->)]; reflexivity.
Qed.

(** X5 on three sharps and on three flats. *)
Lemma X5_key_signature_table_witness :
  _extract_key_signature
    (score [Elem "key" [] None [leaf "fifths" "3"]]) = Ok "A" /\
  _extract_key_signature
    (score [Elem "key" [] None [leaf "fifths" "-3"]]) = Ok "C".
Proof.
  split.
  - exact (proj1 (proj1 (proj2 (X5_key_signature_table
             (score [Elem "key" [] None [leaf "fifths" "3"]])))
             (Elem "key" [] None [leaf "fifths" "3"]) (leaf "fifths" "3") 3
             eq_refl eq_refl eq_refl) ltac:(lia)).
  - exact (proj2 (proj1 (proj2 (X5_key_signature_table
             (score [Elem "key" [] None [leaf "fifths" "-3"]])))
             (Elem "key" [] None [leaf "fifths" "-3"]) (leaf "fifths" "-3") (-3)
             eq_refl eq_refl eq_refl) ltac:(lia)).
Defined.

(** X6. [_extract_time_signature] looks at the first [time] element only.
    With a [beats] and a [beat-type] child in it the result is the two
    texts joined by "/", where an element without text contributes the
    word "None"; when one of the two children is missing, or there is no
    [time] element, the result is "4/4". *)
Theorem X6_time_signature :
  forall root : Element,
    (forall time_elem beats beat_type,
        find_desc "time" root = Some time_elem ->
        find "beats" time_elem = Some beats ->
        find "beat-type" time_elem = Some beat_type ->
        _extract_time_signature root
        = (match text beats with Some b => b | None => "None" end
           ++ "/" ++
           match text beat_type with Some b => b | None => "None" end)%string) /\
    (forall time_elem,
        find_desc "time" root = Some time_elem ->
        find "beats" time_elem = None \/ find "beat-type" time_elem = None ->
        _extract_time_signature root = "4/4") /\
    (find_desc "time" root = None -> _extract_time_signature root = "4/4").
Proof.
  intros root. unfold _extract_time_signature. split; [|split].
  - now intros t b bt -> -> ->.
  - intros t -> [H|H]; rewrite H; [reflexivity|].
    now destruct (find "beats" t).
  - now intros ->.
Qed.

(** X6 on 3/4, and on a [time] element whose [beats] has no text. *)
Lemma X6_time_signature_witness :
  _extract_time_signature
    (score [Elem "time" [] None [leaf "beats" "3"; leaf "beat-type" "4"]])
  = "3/4" /\
  _extract_time_signature
    (score [Elem "time" [] None [Elem "beats" [] None []; leaf "beat-type" "4"]])
  = "None/4".
Proof.
  split.
  - exact (proj1 (X6_time_signature
             (score [Elem "time" [] None
                       [leaf "beats" "3"; leaf "beat-type" "4"]]))
             (Elem "time" [] None [leaf "beats" "3"; leaf "beat-type" "4"])
             (leaf "beats" "3") (leaf "beat-type" "4")
             eq_refl eq_refl eq_refl).
  - exact (proj1 (X6_time_signature
             (score [Elem "time" [] None
                       [Elem "beats" [] None []; leaf "beat-type" "4"]]))
             (Elem "time" [] None
                [Elem "beats" [] None []; leaf "beat-type" "4"])
             (Elem "beats" [] None []) (leaf "beat-type" "4")
             eq_refl eq_refl eq_refl).
Defined.

(** X7. [_extract_tempo] raises nothing but [OverflowError].  A tempo
    other than 120 is the truncation of the float read from the text of
    the first [per-minute] element; that text being empty, rejected by
    [float] or read as NaN gives 120; and text read as a float that [int]
    accepts gives the truncated value. *)
Theorem X7_tempo_values :
  forall root : Element,
    (forall e, _extract_tempo root = Raise e -> e = OverflowError) /\
    (forall n, _extract_tempo root = Ok n -> n <> 120 ->
       exists el s x,
         find_desc "per-minute" root = Some el /\ text el = Some s /\
         float_of_string s = Ok x /\ int_of_float x = Ok n) /\
    (forall el,
        find_desc "per-minute" root = Some el ->
        (text el = None \/ text el = Some "" \/
         exists s, text el = Some s /\
                   (float_of_string s = Raise ValueError \/
                    float_of_string s = Ok S754_nan)) ->
        _extract_tempo root = Ok 120) /\
    (forall el s x n,
        find_desc "per-minute" root = Some el -> text el = Some s ->
        s <> "" -> float_of_string s = Ok x -> int_of_float x = Ok n ->
        _extract_tempo root = Ok n).
Proof.
  intros root. split; [|split; [|split]].
  - intros e He. now apply extract_tempo_raises in He as (-> & _).
  - unfold _extract_tempo, try_except.
    intros n. destruct (find_desc "per-minute" root) as [el|];
      [|intros [= <-] H; contradiction].
    destruct (text el) as [[|c s]|] eqn:Ht; simpl;
      try (intros [= <-] H; contradiction).
    unfold float_of_text.
    destruct (float_of_string (String c s)) as [x|e] eqn:Hf; simpl.
    + destruct (int_of_float x) as [m|e] eqn:Hi; simpl.
      * intros [= <-] _. now exists el, (String c s), x.
      * destruct e; try discriminate. intros [= <-] H; contradiction.
    + destruct e; try discriminate. intros [= <-] H; contradiction.
  - unfold _extract_tempo, try_except. intros el ->.
    intros [->|[->|(s & -> & Hs)]]; try reflexivity.
    destruct s as [|c s]; [reflexivity|]. simpl. unfold float_of_text.
    destruct Hs as [->| ->]; reflexivity.
  - unfold _extract_tempo, try_except. intros el s x n -> -> Hne Hf Hi.
    destruct s as [|c s]; [contradiction|]. simpl. unfold float_of_text.
    rewrite Hf. simpl. now rewrite Hi.
Qed.

(** X7 on a tempo of 90.7 and on a tempo that is not a number. *)
Lemma X7_tempo_values_witness :
  _extract_tempo tempo_fraction = Ok 90 /\
  _extract_tempo (score [leaf "per-minute" "fast"]) = Ok 120.
Proof.
  split.
  - destruct (X7_tempo_values tempo_fraction) as (_ & _ & _ & H).
    refine (H (leaf "per-minute" "90.7") "90.7" _ 90 eq_refl eq_refl _ eq_refl _).
    + discriminate.
    + reflexivity.
  - destruct (X7_tempo_values (score [leaf "per-minute" "fast"]))
      as (_ & _ & H & _).
    apply (H (leaf "per-minute" "fast") eq_refl).
    right. right. exists "fast". split; [reflexivity | now left].
Defined.

(* ===================================================================== *)
(** * More on [convert] and [_extract_notes]                              *)
(* ===================================================================== *)

Lemma int_of_text_raises (t : option string) (e : exn) :
  int_of_text t = Raise e -> e = ValueError \/ e = TypeError.
Proof.
  destruct t as [s|]; unfold int_of_text.
  - intros H. left. now apply int_of_string_raises in H.
  - intros [= <-]. now right.
Qed.

(** X8. Once the file is parsed, [convert] returns exactly when
    [_extract_tempo] and [_extract_key_signature] return.  What it raises
    is what [ET.parse] raised, or [OverflowError] from the tempo, or
    [ValueError] or [TypeError] from the key signature; a parsed document
    without [per-minute] and without [key] elements is always converted. *)
Theorem X8_convert_returns_or_raises :
  forall (env : Env) (path : string) (title composer : option string)
         (root : Element),
    et_parse env path = Ok root ->
    ((exists d, convert env path title composer = Ok d) <->
     (exists tp, _extract_tempo root = Ok tp) /\
     (exists ks, _extract_key_signature root = Ok ks)) /\
    (forall e, convert env path title composer = Raise e ->
       e = OverflowError /\ _extract_tempo root = Raise e \/
       (e = ValueError \/ e = TypeError) /\
       _extract_key_signature root = Raise e) /\
    (find_desc "per-minute" root = None -> find_desc "key" root = None ->
     exists d, convert env path title composer = Ok d).
Proof.
  intros env path t c root Hp.
  assert (Hcases :
    forall e, convert env path t c = Raise e ->
      _extract_tempo root = Raise e \/
      (exists tp, _extract_tempo root = Ok tp) /\
      _extract_key_signature root = Raise e).
  { intros e He. apply convert_raises in He as [He|(r & Hr & He)];
      [congruence|].
    rewrite Hp in Hr. injection Hr as <-. exact He. }
  split; [|split].
  - split.
    + intros (d & Hd).
      apply convert_inv in Hd as (r & tp & ks & Hr & Ht & Hk & _).
      rewrite Hp in Hr. injection Hr as <-.
      split; [now exists tp | now exists ks].
    + intros ((tp & Ht) & (ks & Hk)).
      destruct (convert env path t c) as [d|e] eqn:Hc; [now exists d|].
      destruct (Hcases e eq_refl) as [H|(_ & H)]; congruence.
  - intros e He. destruct (Hcases e He) as [H|(_ & H)].
    + left. split; [|exact H]. now apply extract_tempo_raises in H as (-> & _).
    + right. split; [|exact H].
      apply extract_key_signature_raises in H as (k & f & _ & _ & H).
      now apply int_of_text_raises in H.
  - intros Ht Hk.
    destruct (convert env path t c) as [d|e] eqn:Hc; [now exists d|].
    apply tempo_default in Ht. apply key_default in Hk.
    destruct (Hcases e eq_refl) as [H|(_ & H)]; congruence.
Qed.

(** X8 on the two-note score. *)
Lemma X8_convert_returns_or_raises_witness :
  exists d,
    convert (env_with two_quarters clock_a) "score.musicxml" None None = Ok d.
Proof.
  exact (proj2 (proj2 (X8_convert_returns_or_raises
           (env_with two_quarters clock_a) "score.musicxml" None None
           two_quarters eq_refl)) eq_refl eq_refl).
Defined.

(** X9. The two hints reach the metadata and nothing else: whether
    [convert] raises, and what, does not depend on them, and two results
    for the same file at the same time agree on the notes, the duration,
    the tempo, the key and time signatures and the time stamp. *)
Theorem X9_hints_only_reach_metadata :
  forall (env : Env) (path : string) (t1 c1 t2 c2 : option string),
    match convert env path t1 c1, convert env path t2 c2 with
    | Ok d1, Ok d2 =>
        notes d1 = notes d2 /\ total_duration d1 = total_duration d2 /\
        tempo d1 = tempo d2 /\ keySignature d1 = keySignature d2 /\
        timeSignature d1 = timeSignature d2 /\
        generated_at d1 = generated_at d2
    | Raise e1, Raise e2 => e1 = e2
    | _, _ => False
    end.
Proof.
  intros env path t1 c1 t2 c2. unfold convert, try_except.
  destruct (et_parse env path) as [root|e0]; simpl; [|reflexivity].
  destruct (_extract_notes root) as [ns|e1]; simpl; [|reflexivity].
  destruct (_extract_tempo root) as [tp|e2]; simpl; [|reflexivity].
  destruct (_extract_key_signature root) as [ks|e3]; simpl; [|reflexivity].
  repeat split; reflexivity.
Qed.

(** A [note] element that can give an event: a [pitch] child and no
    [rest] child. *)
Lemma emitted_is_pitched (e : Element) (t : float) (h : string)
    (ev : NoteEvent) :
  emitted e t h = Some ev ->
  negb (is_some (find "rest" e)) && is_some (find "pitch" e) = true.
Proof.
  intros H. apply emitted_inv in H as (-> & p & ? & ? & ? & ? & ? & ? & -> & _).
  reflexivity.
Qed.

Lemma note_events_length (hand : string) (l : list Element) :
  forall t,
    (List.length (fst (note_events hand l t))
     <= List.length
          (filter (fun e => negb (is_some (find "rest" e))
                            && is_some (find "pitch" e)) l))%nat.
Proof.
  induction l as [|e l IH]; intros t; simpl; [lia|].
  destruct (emitted e t hand) as [nd|] eqn:E.
  - rewrite (emitted_is_pitched _ _ _ _ E).
    specialize (IH (end_time nd)).
    destruct (note_events hand l (end_time nd)). simpl in *. lia.
  - specialize (IH t).
    destruct (negb _ && _); simpl; lia.
Qed.

Lemma events_from_length (parts : list Element) :
  forall i,
    (List.length (events_from i parts)
     <= List.length
          (filter (fun e => negb (is_some (find "rest" e))
                            && is_some (find "pitch" e))
                  (flat_map part_note_elems parts)))%nat.
Proof.
  unfold events_from.
  induction parts as [|p ps IH]; intros i; simpl; [lia|].
  rewrite filter_app, !length_app.
  specialize (IH (S i)).
  pose proof (note_events_length (hand_of i) (part_note_elems p) f0_0).
  unfold part_events. lia.
Qed.

(** X10. [_extract_notes] returns at most one note for each [note]
    element that the loops visit and that has a [pitch] child and no
    [rest] child: nothing is emitted for other elements, and nothing is
    emitted twice. *)
Theorem X10_at_most_one_event_per_pitched_note :
  forall root : Element,
    exists l,
      _extract_notes root = Ok l /\
      (List.length l
       <= List.length
            (filter (fun e => negb (is_some (find "rest" e))
                              && is_some (find "pitch" e))
                    (flat_map part_note_elems (findall_desc "part" root))))%nat.
Proof.
  intros root. exists (sort_by start (extracted root)).
  split; [apply extract_notes_returns|].
  rewrite (Permutation_length (sort_by_perm start (extracted root))).
  apply events_from_length.
Qed.

(* ===================================================================== *)
(** * Non-negative durations                                              *)
(* ===================================================================== *)

Lemma shr_1_nonneg (mrs : shr_record) :
  0 <= shr_m mrs -> 0 <= shr_m (shr_1 mrs).
Proof.
  destruct mrs as [m r s]. simpl.
  destruct m as [|[p|p|]|[p|p|]]; simpl; lia.
Qed.

Lemma iter_pos_nonneg (p : positive) :
  forall mrs, 0 <= shr_m mrs -> 0 <= shr_m (iter_pos shr_1 p mrs).
Proof.
  induction p as [p IH|p IH|]; intros mrs H; simpl.
  - apply IH, IH. now apply shr_1_nonneg.
  - now apply IH, IH.
  - now apply shr_1_nonneg.
Qed.

Lemma shr_fexp_nonneg (m e : Z) (l : location) :
  0 <= m -> 0 <= shr_m (fst (shr_fexp prec emax m e l)).
Proof.
  intros H. unfold shr_fexp, shr.
  assert (H0 : 0 <= shr_m (shr_record_of_loc m l))
    by (destruct l as [|[]]; exact H).
  destruct (fexp prec emax (Zdigits2 m + e) - e) as [|p|p]; simpl;
    [exact H0 | now apply iter_pos_nonneg | exact H0].
Qed.

Lemma round_nearest_even_nonneg (m : Z) (l : location) :
  0 <= m -> 0 <= round_nearest_even m l.
Proof.
  intros H. destruct l as [|[]]; simpl; try lia.
  destruct (Z.even m); lia.
Qed.

(** Rounding a non-negative magnitude with a plus sign gives a zero, a
    positive number or plus infinity. *)
Lemma binary_round_aux_nonneg (mx ex : Z) (lx : location) :
  0 <= mx -> nonneg_float (binary_round_aux prec emax false mx ex lx) = true.
Proof.
  intros H. unfold binary_round_aux.
  pose proof (shr_fexp_nonneg mx ex lx H) as H1.
  destruct (shr_fexp prec emax mx ex lx) as [mrs' e']. simpl in H1.
  pose proof (shr_fexp_nonneg _ e' loc_Exact
                (round_nearest_even_nonneg _ (loc_of_shr_record mrs') H1)) as H2.
  destruct (shr_fexp prec emax
              (round_nearest_even (shr_m mrs') (loc_of_shr_record mrs'))
              e' loc_Exact) as [mrs'' e'']. simpl in H2.
  destruct (shr_m mrs'') as [|m|m]; [reflexivity| |lia].
  now destruct (e'' <=? emax - prec).
Qed.

(** The sum of two non-negative floats is non-negative. *)
Lemma fadd_nonneg (x y : float) :
  nonneg_float x = true -> nonneg_float y = true ->
  nonneg_float (fadd x y) = true.
Proof.
  unfold fadd.
  destruct x as [sx|[]| |[] mx ex], y as [sy|[]| |[] my ey];
    simpl; try discriminate; try reflexivity; intros _ _.
  - now destruct sx, sy.
  - unfold binary_normalize.
    destruct (shl_align mx ex (Z.min ex ey)) as [mx' ex'].
    destruct (shl_align my ey (Z.min ex ey)) as [my' ey']. simpl.
    unfold binary_round.
    destruct (shl_align _ _ _) as [mz ez].
    now apply binary_round_aux_nonneg.
Qed.

Lemma nonneg_not_nan (x : float) : nonneg_float x = true -> is_nan x = false.
Proof. now destruct x. Qed.

(** With non-negative durations the events of a run of [note] elements
    start at non-negative times, from a non-negative cursor. *)
Lemma note_events_nonneg (hand : string) (l : list Element) :
  forallb (fun e => match note_duration e with
                    | Ok d => nonneg_float d
                    | Raise _ => true
                    end) l = true ->
  forall t, nonneg_float t = true ->
    forallb (fun ev => nonneg_float (start ev)) (fst (note_events hand l t))
    = true.
Proof.
  induction l as [|e l IH]; intros Hall t Ht; simpl; [reflexivity|].
  simpl in Hall. apply andb_prop in Hall as [He Hl].
  destruct (emitted e t hand) as [nd|] eqn:E; [|now apply IH].
  pose proof (emitted_fields _ _ _ _ E) as (Hstart & _).
  apply emitted_inv in E
    as (_ & p & ? & ? & ? & ? & d & f & _ & _ & _ & _ & _ & _ & Hd & _ & Hev).
  rewrite Hd in He.
  assert (Hend : nonneg_float (end_time nd) = true).
  { unfold end_time. rewrite Hstart, Hev. simpl. now apply fadd_nonneg. }
  specialize (IH Hl (end_time nd) Hend).
  destruct (note_events hand l (end_time nd)) as [evs t']. simpl in *.
  now rewrite Hstart, Ht.
Qed.

Lemma events_from_nonneg (parts : list Element) :
  forallb
    (fun part =>
       forallb (fun e => match note_duration e with
                         | Ok d => nonneg_float d
                         | Raise _ => true
                         end)
               (part_note_elems part)) parts = true ->
  forall i,
    forallb (fun ev => nonneg_float (start ev)) (events_from i parts) = true.
Proof.
  unfold events_from.
  induction parts as [|p ps IH]; intros Hall i; simpl; [reflexivity|].
  simpl in Hall. apply andb_prop in Hall as [Hp Hps].
  rewrite forallb_app, (IH Hps), andb_true_r.
  now apply note_events_nonneg.
Qed.

(** X11. When every [duration] that the loops can read is a non-negative
    float (a zero, a positive number or plus infinity; a [note] without
    [duration] counts as 0.5), no start time is NaN or negative, and the
    notes that [_extract_notes] returns are in ascending order of start
    time. *)
Theorem X11_sorted_for_nonnegative_durations :
  forall root : Element,
    durations_nonneg root = true ->
    exists l,
      _extract_notes root = Ok l /\
      (forall ev, In ev l -> nonneg_float (start ev) = true) /\
      no_nan_keys start l = true /\
      ascending_by start l.
Proof.
  intros root Hd. exists (sort_by start (extracted root)).
  split; [apply extract_notes_returns|].
  pose proof (events_from_nonneg _ Hd 0%nat) as Hnn.
  fold (extracted root) in Hnn.
  assert (Hno : no_nan_keys start (extracted root) = true).
  { unfold no_nan_keys. rewrite forallb_forall in *.
    intros ev Hin. apply negb_true_iff, nonneg_not_nan. now apply Hnn. }
  split; [|split].
  - intros ev Hin.
    apply (Permutation_in _ (sort_by_perm start (extracted root))) in Hin.
    rewrite forallb_forall in Hnn. now apply Hnn.
  - unfold no_nan_keys in *.
    now rewrite (forallb_perm _ _ _ (sort_by_perm start (extracted root))).
  - now apply sort_by_sorted.
Qed.

(** X11 on the score for two hands. *)
Lemma X11_sorted_for_nonnegative_durations_witness :
  exists l, _extract_notes two_hands = Ok l /\ ascending_by start l.
Proof.
  destruct (X11_sorted_for_nonnegative_durations two_hands eq_refl)
    as (l & Hl & _ & _ & Hs).
  now exists l.
Defined.

(* ===================================================================== *)
(** * Storage: upload and local fallback                                  *)
(* ===================================================================== *)

Section StorageFacts.
Import Storage.
Variable w : World.

(** The two outcomes of a call of [_save_local_fallback]. *)
Lemma save_local_fallback_cases (st : State) (job_id : string)
    (data : AnimationData) (title : string) :
  let path := ("/tmp/results/"
               ++ json_filename (strftime_stamp (clock w (ticks st))) job_id)%string in
  match _save_local_fallback w st job_id data title with
  | (st', Ok u) =>
      os_makedirs w (saves st) "/tmp/results" = Ok tt /\
      write_json w (saves st) path data = Ok tt /\
      u = local_locator (clock w (ticks st)) job_id /\
      st' = {| ticks := S (ticks st); saves := S (saves st);
               log := log st ++ [MakeDirs "/tmp/results"; WriteJson path data] |}
  | (st', Raise e) =>
      saves st' = S (saves st) /\
      filter is_request (log st') = filter is_request (log st) /\
      (os_makedirs w (saves st) "/tmp/results" = Raise e \/
       write_json w (saves st) path data = Raise e)
  end.
Proof.
  intros path. unfold _save_local_fallback.
  destruct (os_makedirs w (saves st) "/tmp/results") as [[]|e] eqn:Hm.
  - cbn [ticks saves log].
    change ("/tmp/results" ++ "/"
            ++ json_filename (strftime_stamp (clock w (ticks st))) job_id)%string
      with path.
    destruct (write_json w (saves st) path data) as [[]|e] eqn:Hw.
    + repeat split. now rewrite <- app_assoc.
    + cbn [saves log]. split; [reflexivity|]. split; [|now right].
      rewrite !filter_app. simpl. now rewrite !app_nil_r.
  - cbn [saves log]. split; [reflexivity|]. split; [|now left].
    rewrite filter_app. simpl. now rewrite app_nil_r.
Qed.

(** A call of [_save_local_fallback] makes no request. *)
Lemma save_local_fallback_requests (st : State) (job_id : string)
    (data : AnimationData) (title : string) :
  filter is_request (log (fst (_save_local_fallback w st job_id data title)))
  = filter is_request (log st).
Proof.
  pose proof (save_local_fallback_cases st job_id data title) as H.
  destruct (_save_local_fallback w st job_id data title) as [st' [u|e]];
    simpl in *.
  - destruct H as (_ & _ & _ & ->). simpl.
    rewrite filter_app. simpl. now rewrite app_nil_r.
  - now destruct H as (_ & H & _).
Qed.

(** X12. With both settings present, a serialisable result and an answer
    200 or 201 to the request, [upload_animation_data] returns the public
    locator of the uploaded file, after one POST to the upload address and
    without writing anything locally. *)
Theorem X12_upload_returns_public_locator :
  forall (self : SupabaseStorage) (st : State) (job_id title : string)
         (data : AnimationData) (user_id : option string)
         (content : string) (code : Z),
    unconfigured self = false ->
    json_dumps w data = Ok content ->
    let key := format_text (supabase_key self) in
    let headers := [("Authorization", ("Bearer " ++ key)%string);
                    ("Content-Type", "application/json"); ("apikey", key)] in
    let upload_url :=
      (format_text (supabase_url self) ++ "/storage/v1/object/animation-data/"
       ++ json_filename (strftime_stamp (clock w (ticks st))) job_id)%string in
    http_post w upload_url content headers = Ok code ->
    code = 200 \/ code = 201 ->
    upload_animation_data w self st job_id data title user_id
    = ({| ticks := S (ticks st); saves := saves st;
          log := log st ++ [HttpPost upload_url content headers] |},
       Ok (public_locator self (clock w (ticks st)) job_id)).
Proof.
  intros self st job_id title data user_id content code Hc Hd key headers
         upload_url Hp Hcode.
  unfold upload_animation_data, upload_body. rewrite Hc, Hd.
  cbn [ticks saves log].
  change (format_text (supabase_url self) ++ "/storage/v1/object/"
          ++ bucket_name ++ "/"
          ++ json_filename (strftime_stamp (clock w (ticks st))) job_id)%string
    with upload_url.
  fold key. fold headers. rewrite Hp.
  replace (not_created code) with false; [reflexivity|].
  destruct Hcode as [-> | ->]; reflexivity.
Qed.

(** X13. Whatever happens, the outcome of [upload_animation_data] is
    either the public locator after a successful upload, or the outcome of
    a call of [_save_local_fallback]: a locator it returns is the public
    one or a [file://] locator under /tmp/results, and it raises only what
    the local saving raised in its last attempt. *)
Theorem X13_upload_falls_back_to_local :
  forall (self : SupabaseStorage) (st : State) (job_id title : string)
         (data : AnimationData) (user_id : option string),
    let r := upload_animation_data w self st job_id data title user_id in
    (snd r = Ok (public_locator self (clock w (ticks st)) job_id) /\
     saves (fst r) = saves st /\ unconfigured self = false) \/
    (exists st', r = _save_local_fallback w st' job_id data title /\
                 (saves st <= saves st' <= S (saves st))%nat /\
                 match snd r with
                 | Ok u => u = local_locator (clock w (ticks st')) job_id
                 | Raise e =>
                     os_makedirs w (saves st') "/tmp/results" = Raise e \/
                     exists path, write_json w (saves st') path data = Raise e
                 end).
Proof.
  intros self st job_id title data user_id r. subst r.
  (* a failed first attempt is followed by a second one *)
  assert (Htwice : forall st0,
    saves st0 = saves st ->
    exists st',
      match _save_local_fallback w st0 job_id data title with
      | (st1, Ok u) => (st1, Ok u)
      | (st1, Raise _) => _save_local_fallback w st1 job_id data title
      end = _save_local_fallback w st' job_id data title /\
      (saves st <= saves st' <= S (saves st))%nat).
  { intros st0 Hs0.
    pose proof (save_local_fallback_cases st0 job_id data title) as H.
    destruct (_save_local_fallback w st0 job_id data title)
      as [st1 [u|e]] eqn:E; simpl in *.
    - exists st0. split; [now rewrite E | lia].
    - destruct H as (Hs1 & _). exists st1. split; [reflexivity | lia]. }
  unfold upload_animation_data.
  destruct (unconfigured self) eqn:Hc.
  - right. unfold upload_body. rewrite Hc.
    destruct (Htwice st eq_refl) as (st' & -> & Hs).
    exists st'. repeat split; try lia.
    pose proof (save_local_fallback_cases st' job_id data title) as H.
    destruct (_save_local_fallback w st' job_id data title) as [st3 [u|e]];
      simpl in *.
    + now destruct H as (_ & _ & -> & _).
    + destruct H as (_ & _ & [H|H]); [now left | right; eauto].
  - unfold upload_body. rewrite Hc.
    destruct (json_dumps w data) as [content|e0].
    + cbn [ticks saves log].
      match goal with
      | |- context [http_post w ?u ?c ?h] =>
          destruct (http_post w u c h) as [code|e1]
      end.
      * destruct (not_created code).
        -- right.
           match goal with
           | |- context [_save_local_fallback w ?s0 job_id data title] =>
               destruct (Htwice s0 eq_refl) as (st' & -> & Hs)
           end.
           exists st'. repeat split; try lia.
           pose proof (save_local_fallback_cases st' job_id data title) as H.
           destruct (_save_local_fallback w st' job_id data title)
             as [st3 [u|e]]; simpl in *.
           ++ now destruct H as (_ & _ & -> & _).
           ++ destruct H as (_ & _ & [H|H]); [now left | right; eauto].
        -- left. repeat split.
      * right. eexists. split; [reflexivity|]. cbn [saves].
        split; [lia|].
        match goal with
        | |- context [_save_local_fallback w ?s0 job_id data title] =>
            pose proof (save_local_fallback_cases s0 job_id data title) as H;
            destruct (_save_local_fallback w s0 job_id data title)
              as [st3 [u|e]]; simpl in *
        end.
        -- now destruct H as (_ & _ & -> & _).
        -- destruct H as (_ & _ & [H|H]); [now left | right; eauto].
    + right. eexists. split; [reflexivity|]. cbn [saves].
      split; [lia|].
      match goal with
      | |- context [_save_local_fallback w ?s0 job_id data title] =>
          pose proof (save_local_fallback_cases s0 job_id data title) as H;
          destruct (_save_local_fallback w s0 job_id data title)
            as [st3 [u|e]]; simpl in *
      end.
      * now destruct H as (_ & _ & -> & _).
      * destruct H as (_ & _ & [H|H]); [now left | right; eauto].
Qed.

(** X14. Without the two settings nothing is sent anywhere:
    [upload_animation_data] makes no request, and [test_connection]
    answers [False] without doing anything. *)
Theorem X14_unconfigured_makes_no_request :
  forall (self : SupabaseStorage) (st : State) (job_id title : string)
         (data : AnimationData) (user_id : option string),
    unconfigured self = true ->
    filter is_request
      (log (fst (upload_animation_data w self st job_id data title user_id)))
    = filter is_request (log st) /\
    test_connection w self st = (st, Ok false).
Proof.
  intros self st job_id title data user_id Hc.
  split; [|unfold test_connection; now rewrite Hc].
  unfold upload_animation_data, upload_body. rewrite Hc.
  pose proof (save_local_fallback_requests st job_id data title) as H1.
  destruct (_save_local_fallback w st job_id data title) as [st1 [u|e]];
    simpl in *; [exact H1|].
  now rewrite save_local_fallback_requests.
Qed.

(** X15. When the local directory can be made and the file written in
    the next call of [_save_local_fallback], [upload_animation_data]
    returns a locator, whatever the settings and whatever the network
    does. *)
Theorem X15_upload_returns_when_disk_works :
  forall (self : SupabaseStorage) (st : State) (job_id title : string)
         (data : AnimationData) (user_id : option string),
    os_makedirs w (saves st) "/tmp/results" = Ok tt ->
    (forall path, write_json w (saves st) path data = Ok tt) ->
    exists locator,
      snd (upload_animation_data w self st job_id data title user_id)
      = Ok locator.
Proof.
  intros self st job_id title data user_id Hm Hw.
  assert (Hok : forall st0, saves st0 = saves st ->
            exists st1 u,
              _save_local_fallback w st0 job_id data title = (st1, Ok u)).
  { intros st0 Hs. unfold _save_local_fallback. rewrite Hs, Hm.
    cbn [ticks saves log]. rewrite Hw. eauto. }
  unfold upload_animation_data, upload_body.
  destruct (unconfigured self).
  - destruct (Hok st eq_refl) as (st1 & u & ->). now exists u.
  - destruct (json_dumps w data) as [content|e0].
    + cbn [ticks saves log].
      match goal with
      | |- context [http_post w ?u ?c ?h] =>
          destruct (http_post w u c h) as [code|e1]
      end.
      * destruct (not_created code).
        -- match goal with
           | |- context [_save_local_fallback w ?s0 job_id data title] =>
               destruct (Hok s0 eq_refl) as (st1 & u & ->)
           end.
           now exists u.
        -- eexists. reflexivity.
      * match goal with
        | |- context [_save_local_fallback w ?s0 job_id data title] =>
            destruct (Hok s0 eq_refl) as (st1 & u & ->)
        end.
        now exists u.
    + match goal with
      | |- context [_save_local_fallback w ?s0 job_id data title] =>
          destruct (Hok s0 eq_refl) as (st1 & u & ->)
      end.
      now exists u.
Qed.

(** X16. A local save that fails inside the [try] block is made again by
    the handler: without the settings, or after an answer other than 200
    and 201, a first failing call of [_save_local_fallback] is followed by
    a second call, whose outcome is the outcome of the upload. *)
Theorem X16_failed_local_save_is_repeated :
  forall (self : SupabaseStorage) (st : State) (job_id title : string)
         (data : AnimationData) (user_id : option string)
         (st1 : State) (e : exn),
    unconfigured self = true ->
    _save_local_fallback w st job_id data title = (st1, Raise e) ->
    upload_animation_data w self st job_id data title user_id
    = _save_local_fallback w st1 job_id data title /\
    saves st1 = S (saves st).
Proof.
  intros self st job_id title data user_id st1 e Hc H1.
  unfold upload_animation_data, upload_body. rewrite Hc, H1.
  split; [reflexivity|].
  pose proof (save_local_fallback_cases st job_id data title) as H.
  rewrite H1 in H. now destruct H as (H & _).
Qed.

(** X17. [test_connection] never raises; it answers [True] exactly when
    both settings are present and the request for the list of buckets is
    answered with 200; it makes at most that one request and writes
    nothing. *)
Theorem X17_test_connection :
  forall (self : SupabaseStorage) (st : State),
    exists b,
      snd (test_connection w self st) = Ok b /\
      (b = true <->
       unconfigured self = false /\
       http_get w (format_text (supabase_url self) ++ "/storage/v1/bucket")%string
         [("Authorization",
           ("Bearer " ++ format_text (supabase_key self))%string);
          ("apikey", format_text (supabase_key self))]
       = Ok 200) /\
      (exists extra, log (fst (test_connection w self st)) = log st ++ extra /\
                     (List.length extra <= 1)%nat /\
                     filter is_write extra = []).
Proof.
  intros self st. unfold test_connection.
  destruct (unconfigured self).
  - exists false. split; [reflexivity|]. split.
    + split; [discriminate | now intros [H _]].
    + exists []. simpl. rewrite app_nil_r. repeat split. lia.
  - match goal with
    | |- context [http_get w ?u ?h] => destruct (http_get w u h) as [code|e]
    end.
    + exists (code =? 200). split; [reflexivity|]. split.
      * rewrite Z.eqb_eq. split.
        -- now intros ->.
        -- now intros [_ [= ->]].
      * eexists [_]. simpl. repeat split. lia.
    + exists false. split; [reflexivity|]. split.
      * split; [discriminate | now intros [_ H]].
      * eexists [_]. simpl. repeat split. lia.
Qed.
End StorageFacts.

(** X12 on a world that answers 201. *)
Lemma X12_upload_returns_public_locator_witness :
  snd (Storage.upload_animation_data (SampleRun.world 201 [])
         SampleRun.configured Storage.initial "j1"
         SampleRun.empty_data "Waltz" None)
  = Ok "https://example.supabase.co/storage/v1/object/public/animation-data/20240309_070501_j1.json".
Proof.
  exact (f_equal snd
    (X12_upload_returns_public_locator (SampleRun.world 201 [])
       SampleRun.configured Storage.initial "j1" "Waltz"
       SampleRun.empty_data None "{}" 201
       eq_refl eq_refl eq_refl (or_intror eq_refl))).
Defined.

(** X14 on a world that would answer 201. *)
Lemma X14_unconfigured_makes_no_request_witness :
  Storage.test_connection (SampleRun.world 201 []) SampleRun.no_settings
    Storage.initial
  = (Storage.initial, Ok false).
Proof.
  exact (proj2 (X14_unconfigured_makes_no_request (SampleRun.world 201 [])
                  SampleRun.no_settings Storage.initial "j1" "Waltz"
                  SampleRun.empty_data None eq_refl)).
Defined.

(** X15 on a world that answers 500. *)
Lemma X15_upload_returns_when_disk_works_witness :
  exists locator,
    snd (Storage.upload_animation_data (SampleRun.world 500 [])
           SampleRun.configured Storage.initial "j1"
           SampleRun.empty_data "Waltz" None)
    = Ok locator.
Proof.
  exact (X15_upload_returns_when_disk_works (SampleRun.world 500 [])
           SampleRun.configured Storage.initial "j1" "Waltz"
           SampleRun.empty_data None eq_refl (fun _ => eq_refl)).
Defined.

(** X16 on a disk that fails once: the second attempt gives the locator. *)
Lemma X16_failed_local_save_is_repeated_witness :
  snd (Storage.upload_animation_data (SampleRun.world 201 [0%nat])
         SampleRun.no_settings Storage.initial "j1"
         SampleRun.empty_data "Waltz" None)
  = Ok "file:///tmp/results/20240309_070501_j1.json".
Proof.
  rewrite (proj1 (X16_failed_local_save_is_repeated
             (SampleRun.world 201 [0%nat]) SampleRun.no_settings
             Storage.initial "j1" "Waltz" SampleRun.empty_data None
             _ OSError eq_refl eq_refl)).
  reflexivity.
Defined.

(* ===================================================================== *)
(** * App: the job table                                                  *)
(* ===================================================================== *)

Section AppFacts.
Import App.

Lemma string_eqb_eq (a b : string) : String.eqb a b = true <-> a = b.
Proof. apply String.eqb_eq. Qed.

Lemma dict_set_keys {V : Type} (d : list (string * V)) (k : string) (v v0 : V) :
  dict_get String.eqb k d = Some v0 ->
  map fst (dict_set String.eqb d k v) = map fst d.
Proof.
  induction d as [|[k' v'] d IH]; simpl; [discriminate|].
  destruct (String.eqb k' k); simpl; [reflexivity|].
  intros H. now rewrite IH.
Qed.

(** X18. [process_pdf] refuses a file whose name does not end in ".pdf"
    (in any case of the letters) with status 400 and leaves the job table
    and the task list as they were.  Otherwise it adds one task and a job
    under the new identifier, which [get_processing_status] then returns:
    pending, progress 0, without result and error; the answers for all
    other identifiers are unchanged. *)
Theorem X18_process_pdf_queues_a_job :
  forall (jobs : Jobs) (tasks : list Task) (uuid4 : string) (now : datetime)
         (filename : string) (title composer user_id : option string),
    (endswith (str_lower filename) ".pdf" = false ->
     process_pdf jobs tasks uuid4 now filename title composer user_id
     = (jobs, tasks, Fail (HTTPException 400 "Only PDF files are supported"))) /\
    (endswith (str_lower filename) ".pdf" = true ->
     exists jobs' job,
       process_pdf jobs tasks uuid4 now filename title composer user_id
       = (jobs',
          tasks ++ [{| task_job_id := uuid4; task_filename := filename;
                       task_title := title; task_composer := composer;
                       task_user_id := user_id |}],
          Return {| acc_job_id := uuid4; acc_status := "pending";
                    acc_message := "PDF processing started" |}) /\
       get_processing_status jobs' uuid4 = Return job /\
       status job = "pending" /\ progress job = 0 /\
       created_at job = isoformat now /\
       info_filename (file_info job) = filename /\
       job_result job = None /\ job_error job = None /\
       forall other, other <> uuid4 ->
         get_processing_status jobs' other = get_processing_status jobs other).
Proof.
  intros jobs tasks uuid4 now filename title composer user_id.
  unfold process_pdf. split; intros ->; [reflexivity|].
  cbn [negb]. eexists. eexists. split; [reflexivity|].
  unfold get_processing_status.
  rewrite (dict_get_set_same String.eqb string_eqb_eq).
  repeat split.
  intros other Hne.
  now rewrite (dict_get_set_other String.eqb string_eqb_eq).
Qed.

(** X18 on an upper-case extension and on a text file. *)
Lemma X18_process_pdf_queues_a_job_witness :
  snd (process_pdf [] [] "j1" clock_a "Waltz.PDF" None None None)
  = Return {| acc_job_id := "j1"; acc_status := "pending";
              acc_message := "PDF processing started" |} /\
  process_pdf [("j0", SampleRun.queued)] [] "j1" clock_a "notes.txt"
    None None None
  = ([("j0", SampleRun.queued)], [],
     Fail (HTTPException 400 "Only PDF files are supported")).
Proof.
  split.
  - destruct (proj2 (X18_process_pdf_queues_a_job [] [] "j1" clock_a
                       "Waltz.PDF" None None None) eq_refl)
      as (jobs' & job & H & _).
    now rewrite H.
  - exact (proj1 (X18_process_pdf_queues_a_job [("j0", SampleRun.queued)] []
                    "j1" clock_a "notes.txt" None None None) eq_refl).
Defined.

(** The last value of the job in a run, by the outcome of the
    collaborators. *)
Lemma background_run_last (s : Stages) (j0 : Job) (filename : string)
    (title composer : option string) :
  let j := last (fst (background_run s j0 filename title composer)) j0 in
  created_at j = created_at j0 /\ file_info j = file_info j0 /\
  (all_done s filename title = true ->
   status j = "completed" /\ progress j = 100 /\
   message j = "Processing completed successfully" /\
   job_error j = job_error j0 /\
   exists r path data,
     job_result j = Some r /\
     result_title r = title_or title filename /\
     result_composer r = composer /\
     processed_at r = isoformat (utcnow_end s) /\
     omr_process_pdf s = Done path /\
     converter_convert s path = Done data /\
     storage_upload s data (title_or title filename)
     = Done (animation_data_url r)) /\
  (all_done s filename title = false ->
   status j = "failed" /\ job_result j = job_result j0 /\
   In (progress j) [10; 30; 60; 80] /\
   exists e,
     job_error j = Some e /\
     message j = ("Processing failed: " ++ e)%string /\
     (progress j = 10 /\ save_upload s = Raised e \/
      progress j = 30 /\ omr_process_pdf s = Raised e \/
      (exists path, progress j = 60 /\ omr_process_pdf s = Done path /\
                    converter_convert s path = Raised e) \/
      (exists path data,
          progress j = 80 /\ omr_process_pdf s = Done path /\
          converter_convert s path = Done data /\
          storage_upload s data (title_or title filename) = Raised e))).
Proof.
  unfold background_run, all_done.
  destruct (save_upload s) as [[]|e1].
  2:{ cbn. split; [reflexivity|]. split; [reflexivity|].
      split; [discriminate|]. intros _.
      split; [reflexivity|]. split; [reflexivity|]. split; [auto|].
      exists e1. split; [reflexivity|]. split; [reflexivity|]. now left. }
  destruct (omr_process_pdf s) as [path|e2].
  2:{ cbn. split; [reflexivity|]. split; [reflexivity|].
      split; [discriminate|]. intros _.
      split; [reflexivity|]. split; [reflexivity|]. split; [auto|].
      exists e2. split; [reflexivity|]. split; [reflexivity|].
      right. now left. }
  destruct (converter_convert s path) as [data|e3] eqn:Hc.
  2:{ cbn. split; [reflexivity|]. split; [reflexivity|].
      split; [discriminate|]. intros _.
      split; [reflexivity|]. split; [reflexivity|]. split; [auto|].
      exists e3. split; [reflexivity|]. split; [reflexivity|].
      right. right. left. now exists path. }
  destruct (storage_upload s data (title_or title filename)) as [url|e4] eqn:Hu.
  2:{ cbn. split; [reflexivity|]. split; [reflexivity|].
      split; [discriminate|]. intros _.
      split; [reflexivity|]. split; [reflexivity|]. split; [auto 6|].
      exists e4. split; [reflexivity|]. split; [reflexivity|].
      right. right. right. now exists path, data. }
  cbn. split; [reflexivity|]. split; [reflexivity|].
  split; [|discriminate]. intros _.
  split; [reflexivity|]. split; [reflexivity|]. split; [reflexivity|].
  split; [reflexivity|].
  eexists. exists path, data.
  split; [reflexivity|]. cbn. repeat split; assumption || reflexivity.
Qed.

(** X19. For a job that is in the table, [process_pdf_background] does
    not raise and leaves the job completed or failed.  It is completed
    exactly when saving, OMR, conversion and upload all returned: then the
    progress is 100 and the result holds the locator that the storage
    returned, the title (or the file name when there is no title), the
    composer and the time.  Otherwise it is failed: the progress stays
    where the failing step found it (10, 30, 60 or 80), the error is the
    text of the exception and the message is that text behind
    "Processing failed: ".  The creation time and the file information are
    kept in both cases. *)
Theorem X19_background_ends_completed_or_failed :
  forall (s : Stages) (jobs : Jobs) (job_id filename : string)
         (title composer user_id : option string) (j0 : Job),
    dict_get String.eqb job_id jobs = Some j0 ->
    exists jobs' trace calls j,
      process_pdf_background s jobs job_id filename title composer user_id
      = (jobs', trace, calls, Return tt) /\
      get_processing_status jobs' job_id = Return j /\
      created_at j = created_at j0 /\ file_info j = file_info j0 /\
      (all_done s filename title = true ->
       status j = "completed" /\ progress j = 100 /\
       message j = "Processing completed successfully" /\
       job_error j = job_error j0 /\
       exists r path data,
         job_result j = Some r /\
         result_title r = title_or title filename /\
         result_composer r = composer /\
         processed_at r = isoformat (utcnow_end s) /\
         omr_process_pdf s = Done path /\
         converter_convert s path = Done data /\
         storage_upload s data (title_or title filename)
         = Done (animation_data_url r)) /\
      (all_done s filename title = false ->
       status j = "failed" /\ job_result j = job_result j0 /\
       In (progress j) [10; 30; 60; 80] /\
       exists e,
         job_error j = Some e /\
         message j = ("Processing failed: " ++ e)%string /\
         (progress j = 10 /\ save_upload s = Raised e \/
          progress j = 30 /\ omr_process_pdf s = Raised e \/
          (exists path, progress j = 60 /\ omr_process_pdf s = Done path /\
                        converter_convert s path = Raised e) \/
          (exists path data,
              progress j = 80 /\ omr_process_pdf s = Done path /\
              converter_convert s path = Done data /\
              storage_upload s data (title_or title filename) = Raised e))).
Proof.
  intros s jobs job_id filename title composer user_id j0 Hget.
  unfold process_pdf_background. rewrite Hget.
  pose proof (background_run_last s j0 filename title composer) as H.
  destruct (background_run s j0 filename title composer) as [trace calls].
  cbn [fst] in H.
  exists (dict_set String.eqb jobs job_id (last trace j0)), trace, calls,
         (last trace j0).
  split; [reflexivity|]. split; [|exact H].
  unfold get_processing_status.
  now rewrite (dict_get_set_same String.eqb string_eqb_eq).
Qed.

(** X19 on collaborators of which the OMR processor raises. *)
Lemma X19_background_ends_completed_or_failed_witness :
  exists jobs' trace calls,
    process_pdf_background SampleRun.omr_fails [("j1", SampleRun.queued)]
      "j1" "waltz.pdf" None None None
    = (jobs', trace, calls, Return tt) /\
    option_map status (dict_get String.eqb "j1" jobs') = Some "failed".
Proof.
  destruct (X19_background_ends_completed_or_failed SampleRun.omr_fails
              [("j1", SampleRun.queued)] "j1" "waltz.pdf" None None None
              SampleRun.queued eq_refl)
    as (jobs' & trace & calls & j & Hrun & Hget & _ & _ & _ & Hfail).
  exists jobs', trace, calls. split; [exact Hrun|].
  unfold get_processing_status in Hget.
  destruct (dict_get String.eqb "j1" jobs') as [j'|]; [|discriminate].
  injection Hget as ->. simpl. f_equal. exact (proj1 (Hfail eq_refl)).
Defined.

(** X20. A run of [process_pdf_background] changes no other job and
    does not change the identifiers in the table or their order; for an
    identifier that is not in the table it raises [KeyError], calls no
    collaborator and changes nothing. *)
Theorem X20_background_touches_one_job :
  forall (s : Stages) (jobs : Jobs) (job_id filename : string)
         (title composer user_id : option string),
    let r := process_pdf_background s jobs job_id filename title composer
               user_id in
    let jobs' := fst (fst (fst r)) in
    map fst jobs' = map fst jobs /\
    (forall other, other <> job_id ->
       dict_get String.eqb other jobs' = dict_get String.eqb other jobs) /\
    (dict_get String.eqb job_id jobs = None ->
     r = (jobs, [], [], Fail (KeyError job_id))).
Proof.
  intros s jobs job_id filename title composer user_id.
  unfold process_pdf_background.
  destruct (dict_get String.eqb job_id jobs) as [j0|] eqn:Hget.
  - destruct (background_run s j0 filename title composer) as [trace calls].
    cbn [fst]. split; [now apply dict_set_keys with j0|].
    split; [|discriminate].
    intros other Hne.
    now rewrite (dict_get_set_other String.eqb string_eqb_eq).
  - cbn [fst]. repeat split.
Qed.

(** X21. During a run the progress of the job never goes down, and the
    job is "processing" at every point before the last.  The
    collaborators are called in the order of the pipeline and none after
    a failure: the OMR processor only after the upload was saved, the
    converter only on the path that the OMR processor returned, the
    storage only with the data that the converter returned. *)
Theorem X21_progress_and_order_of_calls :
  forall (s : Stages) (j0 : Job) (filename : string)
         (title composer : option string),
    let trace := fst (background_run s j0 filename title composer) in
    let calls := snd (background_run s j0 filename title composer) in
    StronglySorted Z.le (map progress trace) /\
    (forall j, In j (removelast trace) -> status j = "processing") /\
    (In OmrProcessPdf calls -> save_upload s = Done tt) /\
    (forall path, In (ConverterConvert path) calls ->
                  save_upload s = Done tt /\ omr_process_pdf s = Done path) /\
    (forall data t, In (StorageUpload data t) calls ->
                    t = title_or title filename /\
                    exists path, omr_process_pdf s = Done path /\
                                 converter_convert s path = Done data) /\
    (List.length (filter is_remote_call calls) <= 3)%nat.
Proof.
  intros s j0 filename title composer. unfold background_run.
  assert (Hcl : forall c, In c (cleanup_on_error s) -> c = RemoveTree).
  { intros c. unfold cleanup_on_error.
    destruct (temp_dir_exists s); simpl; [intros [<-|[]]; reflexivity|tauto]. }
  assert (Hlen : filter is_remote_call (cleanup_on_error s) = []).
  { unfold cleanup_on_error. now destruct (temp_dir_exists s). }
  destruct (save_upload s) as [[]|e1].
  2:{ cbn [fst snd]. split; [repeat constructor; simpl; lia|].
      split; [simpl; intros j [<-|[]]; reflexivity|].
      simpl. rewrite Hlen.
      repeat split; try (intros [H|H]; [discriminate H|]);
        try (intros; match goal with
                     | H : _ \/ _ |- _ => destruct H as [H|H];
                                          [discriminate H|]
                     end);
        try (apply Hcl in H; discriminate H); simpl; lia. }
  destruct (omr_process_pdf s) as [path|e2].
  2:{ cbn [fst snd]. split; [repeat constructor; simpl; lia|].
      split; [simpl; intros j [<-|[<-|[]]]; reflexivity|].
      simpl. rewrite Hlen.
      repeat split; trivial;
        try (intros; repeat match goal with
                     | H : _ \/ _ |- _ => destruct H as [H|H];
                                          [discriminate H|]
                     end; apply Hcl in H; discriminate H); simpl; lia. }
  destruct (converter_convert s path) as [data|e3] eqn:Hc.
  2:{ cbn [fst snd]. split; [repeat constructor; simpl; lia|].
      split; [simpl; intros j [<-|[<-|[<-|[]]]]; reflexivity|].
      simpl. rewrite Hlen.
      split; [trivial|]. split.
      - intros p [H|[H|[H|H]]]; try discriminate H.
        + now injection H as <-.
        + apply Hcl in H. discriminate H.
      - split; [|simpl; lia].
        intros d t [H|[H|[H|H]]]; try discriminate H.
        apply Hcl in H. discriminate H. }
  destruct (storage_upload s data (title_or title filename)) as [url|e4].
  2:{ cbn [fst snd]. split; [repeat constructor; simpl; lia|].
      split; [simpl; intros j [<-|[<-|[<-|[<-|[]]]]]; reflexivity|].
      simpl. rewrite Hlen.
      split; [trivial|]. split.
      - intros p [H|[H|[H|[H|H]]]]; try discriminate H.
        + now injection H as <-.
        + apply Hcl in H. discriminate H.
      - split; [|simpl; lia].
        intros d t [H|[H|[H|[H|H]]]]; try discriminate H.
        + injection H as <- <-. split; [reflexivity|]. now exists path.
        + apply Hcl in H. discriminate H. }
  cbn [fst snd]. split; [repeat constructor; simpl; lia|].
  split; [simpl; intros j [<-|[<-|[<-|[<-|[]]]]]; reflexivity|].
  simpl. split; [trivial|]. split.
  - intros p [H|[H|[H|[H|[H|[]]]]]]; try discriminate H.
    now injection H as <-.
  - split; [|lia].
    intros d t [H|[H|[H|[H|[H|[]]]]]]; try discriminate H.
    injection H as <- <-. split; [reflexivity|]. now exists path.
Qed.
End AppFacts.
